(** * reserve-data: activity records, reserve core and HTTP control plane

    A shallow embedding of the parts of the reserve-data service that its
    specification talks about:

    - [common]: [ActivityID] and its text form, [ActivityRecord] and the three
      pending predicates (common/types.go);
    - [core]: [ReserveCore.Deposit] and [ReserveCore.SetRates], written in a
      small state monad over the collaborators the core calls (the activity
      storage, the blockchain client and the clock);
    - [http]: [getTimePoint], [IsIntime] and [HTTPServer.Authenticated].

    Go's [strconv], [strings] and [net/url] functions used by that code are
    modelled in modules of the same names.  A [uint64] or [int64] is a [Z]
    with the wrap-around written out; a Go [string] is a [string] (a
    sequence of bytes); a Go map is a [gmap]. *)

From Stdlib Require Import ZArith Lia Ascii String List Bool.
From stdpp Require Import base gmap strings list sorting.

Local Open Scope string_scope.
Local Open Scope Z_scope.

(** ** Machine integers *)

Definition maxUint64 : Z := 18446744073709551615.
Definition two64 : Z := 18446744073709551616.
Definition two63 : Z := 9223372036854775808.

(** Conversion to [uint64]: the value modulo [2^64]. *)
Definition to_uint64 (x : Z) : Z := x mod two64.

(** Conversion to [int64]: two's complement wrap-around. *)
Definition to_int64 (x : Z) : Z := (x + two63) mod two64 - two63.

Definition is_uint64 (x : Z) : Prop := 0 <= x <= maxUint64.
Definition is_int64 (x : Z) : Prop := - two63 <= x < two63.

(** ** Go's [error] values

    An [error] is [nil] or carries a message; [strconv] errors are kept
    apart because the code only tests them for [nil]. *)

Inductive goerror : Type :=
| ErrSyntax                      (* strconv.ErrSyntax *)
| ErrRange                       (* strconv.ErrRange *)
| ErrorString (msg : string).    (* errors.New(msg) *)

Definition error : Type := option goerror.   (* [None] is [nil] *)

Definition is_nil (e : error) : bool :=
  match e with None => true | Some _ => false end.

(** ** package strconv *)

Module strconv.

Definition byte_of (c : ascii) : Z := Z.of_N (N_of_ascii c).
Definition ascii_of (b : Z) : ascii := ascii_of_N (Z.to_N b).

(** The digit value of a byte in [ParseUint]'s loop: ['0'..'9'],
    ['a'..'z'] and ['A'..'Z'], anything else is a syntax error. *)
Definition digitVal (d : ascii) : option Z :=
  let b := byte_of d in
  if (48 <=? b) && (b <=? 57) then Some (b - 48)
  else if (97 <=? b) && (b <=? 122) then Some (b - 97 + 10)
  else if (65 <=? b) && (b <=? 90) then Some (b - 65 + 10)
  else None.

(** The loop of [ParseUint]: [n] is the value read so far. *)
Fixpoint parseLoop (base cutoff maxVal : Z) (n : Z) (s : string) : Z * error :=
  match s with
  | EmptyString => (n, None)
  | String d rest =>
      match digitVal d with
      | None => (0, Some ErrSyntax)
      | Some v =>
          if base <=? v then (0, Some ErrSyntax)
          else if cutoff <=? n then (maxUint64, Some ErrRange)
          else
            let n' := to_uint64 (n * base) in
            let n1 := to_uint64 (n' + v) in
            if (n1 <? n') || (maxVal <? n1) then (maxUint64, Some ErrRange)
            else parseLoop base cutoff maxVal n1 rest
      end
  end.

(** [strconv.ParseUint(s, base, bitSize)] for [2 <= base <= 36] and
    [bitSize > 0], which is how the code calls it. *)
Definition ParseUint (s : string) (base bitSize : Z) : Z * error :=
  match s with
  | EmptyString => (0, Some ErrSyntax)
  | _ =>
      let cutoff := maxUint64 / base + 1 in
      let maxVal := 2 ^ bitSize - 1 in
      parseLoop base cutoff maxVal 0 s
  end.

(** [strconv.ParseInt(s, base, bitSize)]. *)
Definition ParseInt (s : string) (base bitSize : Z) : Z * error :=
  match s with
  | EmptyString => (0, Some ErrSyntax)
  | String c0 rest =>
      let '(neg, s1) :=
        if Ascii.eqb c0 "+"%char then (false, rest)
        else if Ascii.eqb c0 "-"%char then (true, rest)
        else (false, s) in
      let '(un, err) := ParseUint s1 base bitSize in
      match err with
      | Some ErrSyntax => (0, err)
      | Some (ErrorString _) => (0, err)
      | _ =>
          let cutoff := 2 ^ (bitSize - 1) in
          if negb neg && (cutoff <=? un) then (cutoff - 1, Some ErrRange)
          else if neg && (cutoff <? un) then (- cutoff, Some ErrRange)
          else
            let n := to_int64 un in
            (if neg then to_int64 (- n) else n, None)
      end
  end.

(** The decimal digits of [u], most significant first, in front of
    [acc]: the division loop of [formatBits]. *)
Fixpoint formatBits (fuel : nat) (u : Z) (acc : string) : string :=
  match fuel with
  | O => acc
  | S fuel' =>
      if u <? 10 then String (ascii_of (48 + u)) acc
      else formatBits fuel' (u / 10) (String (ascii_of (48 + u mod 10)) acc)
  end.

(** [strconv.FormatUint(u, 10)]; a [uint64] has at most 20 digits. *)
Definition FormatUint (u : Z) : string := formatBits 20 u "".

(** [strconv.FormatInt(i, 10)]. *)
Definition FormatInt (i : Z) : string :=
  if i <? 0 then String "-"%char (FormatUint (to_uint64 (- i))) else FormatUint i.

End strconv.

(** ** package strings *)

Module strings.

(** [strings.Split(s, sep)] for a separator of one byte, the only way
    the code calls it: the pieces of [s] between the occurrences of
    [sep]; a string without [sep] is its own single piece. *)
Fixpoint Split (s : string) (sep : ascii) : list string :=
  match s with
  | EmptyString => [EmptyString]
  | String c rest =>
      if Ascii.eqb c sep then EmptyString :: Split rest sep
      else
        match Split rest sep with
        | [] => [String c EmptyString]
        | p :: ps => String c p :: ps
        end
  end.

(** [strings.Join(parts, sep)]. *)
Fixpoint Join (parts : list string) (sep : string) : string :=
  match parts with
  | [] => ""
  | [p] => p
  | p :: ps => p ++ sep ++ Join ps sep
  end.

End strings.

(** ** Decimal numerals

    The vocabulary in which the text form of an [ActivityID] and of a
    nonce is specified. *)

Module decimal.

Definition isDigit (c : ascii) : bool :=
  let b := strconv.byte_of c in (48 <=? b) && (b <=? 57).

Fixpoint allDigits (s : string) : bool :=
  match s with
  | EmptyString => true
  | String c rest => isDigit c && allDigits rest
  end.

(** A numeral: one decimal digit or more. *)
Definition isNumeral (s : string) : bool :=
  negb (String.eqb s "") && allDigits s.

Definition pow10 (k : nat) : Z := 10 ^ Z.of_nat k.

(** [ParseUint]'s [cutoff] and [maxVal] for base 10 and 64 bits. *)
Definition cutoff10 : Z := maxUint64 / 10 + 1.
Definition maxVal64 : Z := 2 ^ 64 - 1.

(** The number a string of digits denotes. *)
Fixpoint value (s : string) : Z :=
  match s with
  | EmptyString => 0
  | String c rest =>
      (strconv.byte_of c - 48) * pow10 (String.length rest) + value rest
  end.

(** A numeral without superfluous leading zeros. *)
Definition canonical (s : string) : bool :=
  match s with
  | EmptyString => false
  | String c rest =>
      allDigits s && (negb (Ascii.eqb c "0"%char) || String.eqb rest "")
  end.

(** Whether the byte [sep] occurs in [s]. *)
Fixpoint contains (s : string) (sep : ascii) : bool :=
  match s with
  | EmptyString => false
  | String c rest => Ascii.eqb c sep || contains rest sep
  end.

End decimal.

(** ** package common (common/types.go) *)

Module common.

(** [time.Now().UnixNano() / int64(time.Millisecond)] converted to
    [uint64]; [now] is the reading of the clock, an [int64] count of
    nanoseconds.  Go's integer division truncates toward zero. *)
Definition GetTimepoint (now : Z) : Z := to_uint64 (Z.quot now 1000000).

(** The server time in milliseconds as the signed number the clock
    gives, before the conversion to [uint64]. *)
Definition serverMillis (now : Z) : Z := Z.quot now 1000000.

Record Token : Type := mkToken {
  ID : string;
  Address : string;
  Decimal : Z
}.

Definition ExchangeID : Type := string.

(** The methods of the [Exchange] interface the core calls before it
    records a deposit. *)
Record Exchange : Type := mkExchange {
  Exchange_ID : ExchangeID;
  Exchange_Address : Token -> string * bool
}.

Record ActivityID : Type := NewActivityID {
  Timepoint : Z;     (* uint64 *)
  EID : string
}.

Definition MarshalText (self : ActivityID) : string * error :=
  (strconv.FormatUint (Timepoint self) ++ "|" ++ EID self, None).

Definition StringToActivityID (id : string) : ActivityID * error :=
  let result := NewActivityID 0 "" in
  let parts := strings.Split id "|"%char in
  if (Z.of_nat (length parts) <? 2) then
    (result, Some (ErrorString "Invalid activity id"))
  else
    let timeStr := hd "" parts in
    let eid := strings.Join (tl parts) "|" in
    let '(timepoint, err) := strconv.ParseUint timeStr 10 64 in
    match err with
    | Some _ => (result, err)
    | None => (NewActivityID timepoint eid, None)
    end.

(** [UnmarshalText] writes through its receiver: the result is the new
    value of [self] and the error. *)
Definition UnmarshalText (self : ActivityID) (b : string) : ActivityID * error :=
  let '(id, err) := StringToActivityID b in
  match err with
  | Some _ => (self, err)
  | None => (NewActivityID (Timepoint id) (EID id), None)
  end.

Definition ActivityID_String (self : ActivityID) : string :=
  fst (MarshalText self).

(** The values stored under [interface{}] in an activity's [Params]
    and [Result]. *)
Inductive Value : Type :=
| VString (s : string)
| VUint64 (n : Z)
| VError (e : error)
| VToken (t : Token)
| VTokens (ts : list Token)
| VExchange (e : Exchange)
| VBigInt (z : Z)
| VBigInts (zs : list Z).

Record ActivityRecord : Type := mkActivityRecord {
  Action : string;
  ActID : ActivityID;
  Destination : string;
  Params : gmap string Value;
  Result : gmap string Value;
  ExchangeStatus : string;
  MiningStatus : string;
  Timestamp : string
}.

Definition streq (a b : string) : bool := String.eqb a b.
Definition strne (a b : string) : bool := negb (String.eqb a b).

Definition IsExchangePending (self : ActivityRecord) : bool :=
  let E := ExchangeStatus self in
  let M := MiningStatus self in
  if streq (Action self) "withdraw" then
    (streq E "" || streq E "submitted") && strne M "failed"
  else if streq (Action self) "deposit" then
    (streq E "" || streq E "pending") && strne M "failed"
  else if streq (Action self) "trade" then
    streq E "" || streq E "submitted"
  else true.

Definition IsBlockchainPending (self : ActivityRecord) : bool :=
  let E := ExchangeStatus self in
  let M := MiningStatus self in
  if streq (Action self) "withdraw" || streq (Action self) "deposit"
     || streq (Action self) "set_rates" then
    (streq M "" || streq M "submitted") && strne E "failed"
  else true.

Definition IsPending (self : ActivityRecord) : bool :=
  let E := ExchangeStatus self in
  let M := MiningStatus self in
  if streq (Action self) "withdraw" then
    (streq E "" || streq E "submitted" || streq M "" || streq M "submitted")
    && strne M "failed" && strne E "failed"
  else if streq (Action self) "deposit" then
    (streq E "" || streq E "pending" || streq M "" || streq M "submitted")
    && strne M "failed" && strne E "failed"
  else if streq (Action self) "trade" then
    (streq E "" || streq E "submitted") && strne E "failed"
  else if streq (Action self) "set_rates" then
    (streq M "" || streq M "submitted") && strne E "failed"
  else true.

(** *** Clock conversions and timestamps

    A [time.Time] is kept as the reading [UnixNano()] gives of it, an
    [int64] count of nanoseconds. *)

Definition TimeToTimepoint (t : Z) : Z := to_uint64 (Z.quot t 1000000).

(** [time.Unix(0, int64(t)*int64(time.Millisecond))]: the product wraps
    around in [int64]. *)
Definition TimepointToTime (t : Z) : Z := to_int64 (to_int64 t * 1000000).

(** [GetTimestamp]: [strconv.Itoa] of the clock's milliseconds. *)
Definition GetTimestamp (now : Z) : string :=
  strconv.FormatInt (to_int64 (Z.quot now 1000000)).

(** [Timestamp.ToUint64]; [None] stands for the panic on a timestamp
    that [ParseUint] refuses. *)
Definition Timestamp_ToUint64 (self : string) : option Z :=
  let '(res, err) := strconv.ParseUint self 10 64 in
  match err with
  | Some _ => None
  | None => Some res
  end.

Definition NewTokenPairID (base quote : string) : string :=
  base ++ "-" ++ quote.

(** *** [ExchangeInfo]

    The table of precisions and limits of an exchange, by token pair.
    [L] is the type of an [ExchangePrecisionLimit], whose limits are
    [float32]s, and [zero] its zero value.  The lock serialises the
    calls; the model is of one call at a time. *)

Section ExchangeInfo.
Variable L : Type.
Variable zero : L.

Record ExchangeInfo : Type := mkExchangeInfo {
  data : gmap string L
}.

Definition NewExchangeInfo : ExchangeInfo := mkExchangeInfo ∅.

Definition ExchangeInfo_Update (self : ExchangeInfo) (pair : string)
    (d : L) : ExchangeInfo :=
  mkExchangeInfo (<[ pair := d ]> (data self)).

Definition ExchangeInfo_Get (self : ExchangeInfo) (pair : string)
  : L * error :=
  match data self !! pair with
  | Some info => (info, None)
  | None => (zero, Some (ErrorString "Token pair is not existed"))
  end.

Definition ExchangeInfo_GetData (self : ExchangeInfo) : gmap string L :=
  data self.

End ExchangeInfo.

Arguments mkExchangeInfo {L}.
Arguments data {L}.
Arguments NewExchangeInfo {L}.
Arguments ExchangeInfo_Update {L}.
Arguments ExchangeInfo_Get {L}.
Arguments ExchangeInfo_GetData {L}.

End common.

(** ** package metric: the in-memory metric store *)

Module metric.

Definition MAX_CAPACITY : Z := 1000.

Section RamMetricStorage.

(** The type of a [float64]; the store only moves such values. *)
Variable float64 : Type.

Record TokenMetric : Type := mkTokenMetric {
  AfpMid : float64;
  Spread : float64
}.

Record MetricEntry : Type := mkMetricEntry {
  Timestamp : Z;     (* uint64 *)
  Data : gmap string TokenMetric
}.

Record TokenMetricResponse : Type := mkTokenMetricResponse {
  resp_Timestamp : Z;
  resp_AfpMid : float64;
  resp_Spread : float64
}.

Definition MetricList : Type := list TokenMetricResponse.

(** [RamMetricStorage], oldest entry first. *)
Record RamMetricStorage : Type := mkRamMetricStorage {
  entries : list MetricEntry
}.

Definition NewRamMetricStorage : RamMetricStorage := mkRamMetricStorage [].

(** [StoreMetric]: append, then cut the front down to the capacity. *)
Definition StoreMetric (self : RamMetricStorage) (e : MetricEntry)
    (timepoint : Z) : RamMetricStorage * error :=
  let appended := (entries self ++ [e])%list in
  let first := Z.of_nat (length appended) - MAX_CAPACITY in
  (mkRamMetricStorage
     (if 0 <? first then drop (Z.to_nat first) appended else appended),
   None).

(** The inner loop of [GetMetric]: every metric of the entry whose
    token was asked for goes to the end of that token's list. *)
Definition collect (e : MetricEntry) (imResult : gmap string MetricList)
  : gmap string MetricList :=
  fold_left
    (fun (acc : gmap string MetricList) (km : string * TokenMetric) =>
       match acc !! fst km with
       | Some metricList =>
           <[ fst km :=
                (metricList ++ [mkTokenMetricResponse (Timestamp e)
                                  (AfpMid (snd km)) (Spread (snd km))])%list ]>
             acc
       | None => acc
       end)
    (map_to_list (Data e)) imResult.

(** The outer loop of [GetMetric], over the entries from the newest to
    the oldest; it stops at the first entry out of range that is not
    later than [fromTime]. *)
Fixpoint scan (fromTime toTime : Z) (newestFirst : list MetricEntry)
    (imResult : gmap string MetricList) : gmap string MetricList :=
  match newestFirst with
  | [] => imResult
  | e :: older =>
      if (fromTime <=? Timestamp e) && (Timestamp e <=? toTime) then
        scan fromTime toTime older (collect e imResult)
      else if Timestamp e <=? fromTime then imResult
      else scan fromTime toTime older imResult
  end.

(** [GetMetric]. *)
Definition GetMetric (self : RamMetricStorage) (tokens : list common.Token)
    (fromTime toTime : Z) : gmap string MetricList * error :=
  let imResult : gmap string MetricList :=
    fold_left (fun acc tok => <[ common.ID tok := [] ]> acc) tokens ∅ in
  (scan fromTime toTime (rev (entries self)) imResult, None).

(** *** What [GetMetric] is expected to answer

    The vocabulary of the statements about [GetMetric]. *)

Definition inRange (fromTime toTime : Z) (e : MetricEntry) : bool :=
  (fromTime <=? Timestamp e) && (Timestamp e <=? toTime).

(** The metrics of a token in a list of entries, in the order of the
    list. *)
Definition metricsOf (tok : string) (es : list MetricEntry) : MetricList :=
  flat_map
    (fun e =>
       match Data e !! tok with
       | Some m => [mkTokenMetricResponse (Timestamp e) (AfpMid m) (Spread m)]
       | None => []
       end)
    es.

(** One metric appended to the list of its token, if the token was
    asked for. *)
Definition step (t : Z) (acc : gmap string MetricList)
    (km : string * TokenMetric) : gmap string MetricList :=
  match acc !! fst km with
  | Some metricList =>
      <[ fst km :=
           (metricList ++ [mkTokenMetricResponse t (AfpMid (snd km))
                             (Spread (snd km))])%list ]> acc
  | None => acc
  end.

Definition found (t : Z) (o : option TokenMetric) : MetricList :=
  match o with
  | Some m => [mkTokenMetricResponse t (AfpMid m) (Spread m)]
  | None => []
  end.

(** The entries in range that the loop reaches before it stops. *)
Fixpoint reached (fromTime toTime : Z) (newestFirst : list MetricEntry)
  : list MetricEntry :=
  match newestFirst with
  | [] => []
  | e :: older =>
      if inRange fromTime toTime e then e :: reached fromTime toTime older
      else if Timestamp e <=? fromTime then []
      else reached fromTime toTime older
  end.

End RamMetricStorage.

Arguments mkTokenMetric {float64}.
Arguments AfpMid {float64}.
Arguments Spread {float64}.
Arguments mkMetricEntry {float64}.
Arguments Timestamp {float64}.
Arguments Data {float64}.
Arguments mkTokenMetricResponse {float64}.
Arguments resp_Timestamp {float64}.
Arguments resp_AfpMid {float64}.
Arguments resp_Spread {float64}.
Arguments mkRamMetricStorage {float64}.
Arguments entries {float64}.
Arguments NewRamMetricStorage {float64}.
Arguments StoreMetric {float64}.
Arguments collect {float64}.
Arguments scan {float64}.
Arguments GetMetric {float64}.
Arguments inRange {float64}.
Arguments metricsOf {float64}.
Arguments reached {float64}.
Arguments step {float64}.
Arguments found {float64}.

End metric.

(** ** package core: the command executor *)

Module core.
Import common.

(** An [ethereum.Hash], kept as the text [Hex()] prints. *)
Record Hash : Type := mkHash { Hex : string }.

(** [ethereum.Hash{}], thirty-two zero bytes. *)
Definition zeroHash : Hash :=
  mkHash "0x0000000000000000000000000000000000000000000000000000000000000000".

(** The [ActivityStorage] interface, over the type [S] of the store's
    states. *)
Class ActivityStorage (S : Type) : Type := {
  Record_ : string -> ActivityID -> string ->
            gmap string Value -> gmap string Value ->
            string -> string -> Z -> S -> S * error;
  HasPendingDeposit : Token -> Exchange -> S -> bool
}.

(** The [Blockchain] interface, over the type [B] of the client's
    states. *)
Module Blockchain.
Class Interface (B : Type) : Type := {
  Send : Token -> Z -> string -> B -> (Hash * error) * B;
  SetRates : list string -> list Z -> list Z -> Z -> B -> (Hash * error) * B
}.
End Blockchain.

(** The transactions the core asked the blockchain client for. *)
Inductive ChainCall : Type :=
| CallSend (token : Token) (amount : Z) (address : string)
| CallSetRates (tokens : list string) (buys sells : list Z) (block : Z).

(** What a command can touch: the journal, the chain client, and the
    log of calls made to the client. *)
Record World (S B : Type) : Type := mkWorld {
  storage : S;
  chain : B;
  chainCalls : list ChainCall
}.
Arguments mkWorld {S B}.
Arguments storage {S B}.
Arguments chain {S B}.
Arguments chainCalls {S B}.

(** Commands are state transformers of the world. *)
Definition M (W A : Type) : Type := W -> A * W.
Definition ret {W A} (a : A) : M W A := fun w => (a, w).
Definition bind {W A C} (m : M W A) (k : A -> M W C) : M W C :=
  fun w => let '(a, w') := m w in k a w'.

Declare Scope cmd_scope.
Delimit Scope cmd_scope with cmd.
Notation "'let!' x ':=' c1 'in' c2" := (bind c1 (fun x => c2))
  (at level 10, x binder, c1 at level 100, c2 at level 200) : cmd_scope.
Notation "'let!' ' pat ':=' c1 'in' c2" :=
  (bind c1 (fun x => match x with pat => c2 end))
  (at level 10, pat pattern, c1 at level 100, c2 at level 200) : cmd_scope.

Definition timebasedID (now : Z) (id : string) : ActivityID :=
  NewActivityID (to_uint64 now) id.

(** [ethereum.HexToAddress]: addresses are kept as their hex text. *)
Definition HexToAddress (s : string) : string := s.

Section ReserveCore.
Context {S B : Type} `{ActivityStorage S} `{Blockchain.Interface B}.

(** [strconv.FormatFloat(common.BigToFloat(amount, decimal), 'f', -1, 64)]:
    floating point is outside the model, the text it prints is a
    parameter. *)
Variable FormatAmount : Z -> Z -> string.

Local Open Scope cmd_scope.

Definition storage_HasPendingDeposit (token : Token) (exchange : Exchange)
  : M (World S B) bool :=
  fun w => (HasPendingDeposit token exchange (storage w), w).

Definition storage_Record (action : string) (id : ActivityID)
    (destination : string) (params result : gmap string Value)
    (estatus mstatus : string) (timepoint : Z) : M (World S B) error :=
  fun w =>
    let '(s', err) :=
      Record_ action id destination params result estatus mstatus
              timepoint (storage w) in
    (err, mkWorld s' (chain w) (chainCalls w)).

Definition blockchain_Send (token : Token) (amount : Z) (address : string)
  : M (World S B) (Hash * error) :=
  fun w =>
    let '(r, b') := Blockchain.Send token amount address (chain w) in
    (r, mkWorld (storage w) b'
          (chainCalls w ++ [CallSend token amount address])).

Definition blockchain_SetRates (tokens : list string) (buys sells : list Z)
    (block : Z) : M (World S B) (Hash * error) :=
  fun w =>
    let '(r, b') := Blockchain.SetRates tokens buys sells block (chain w) in
    (r, mkWorld (storage w) b'
          (chainCalls w ++ [CallSetRates tokens buys sells block])).

Definition status_of (err : error) : string :=
  if is_nil err then "submitted" else "failed".

(** [ReserveCore.Deposit]; [now] is the reading of [time.Now()] that
    [timebasedID] takes. *)
Definition Deposit (now : Z) (exchange : Exchange) (token : Token)
    (amount : Z) (timepoint : Z) : M (World S B) (ActivityID * error) :=
  let '(address, supported) := Exchange_Address exchange token in
  let! '(tx, err) :=
    (if negb supported then
       ret (zeroHash,
            Some (ErrorString ("Exchange " ++ Exchange_ID exchange
                    ++ " doesn't support token " ++ ID token)))
     else
       let! pending := storage_HasPendingDeposit token exchange in
       if (pending : bool) then
         ret (zeroHash,
              Some (ErrorString ("There is a pending " ++ ID token
                      ++ " deposit to " ++ Exchange_ID exchange
                      ++ " currently, please try again")))
       else blockchain_Send token amount address) in
  let status := status_of err in
  let amountFloat := FormatAmount amount (Decimal token) in
  let uid := timebasedID now (Hex tx ++ "|" ++ ID token ++ "|" ++ amountFloat) in
  let! _ := storage_Record "deposit" uid (Exchange_ID exchange)
         {[ "exchange" := VExchange exchange;
            "token" := VToken token;
            "amount" := VString amountFloat;
            "timepoint" := VUint64 timepoint ]}
         {[ "tx" := VString (Hex tx);
            "error" := VError err ]}
         "" status timepoint in
  ret (uid, err).

(** [ReserveCore.SetRates]; [now] is the reading of the clock taken
    by [timebasedID], [now'] the later one of [common.GetTimepoint]. *)
Definition SetRates (now now' : Z) (tokens : list Token)
    (buys sells : list Z) (block : Z) : M (World S B) (ActivityID * error) :=
  let lentokens := length tokens in
  let lenbuys := length buys in
  let lensells := length sells in
  let! '(tx, err) :=
    (if negb (Nat.eqb lentokens lenbuys) || negb (Nat.eqb lentokens lensells) then
       ret (zeroHash,
            Some (ErrorString "Tokens, buys and sells must have the same length"))
     else
       let tokenAddrs := map (fun token => HexToAddress (Address token)) tokens in
       blockchain_SetRates tokenAddrs buys sells block) in
  let status := status_of err in
  let uid := timebasedID now (Hex tx) in
  let! _ := storage_Record "set_rates" uid "blockchain"
         {[ "tokens" := VTokens tokens;
            "buys" := VBigInts buys;
            "sells" := VBigInts sells;
            "block" := VBigInt block ]}
         {[ "tx" := VString (Hex tx);
            "error" := VError err ]}
         "" status (GetTimepoint now') in
  ret (uid, err).

End ReserveCore.

(** *** Commands that go to an exchange *)

(** The methods of the [Exchange] interface that move funds or orders,
    over the type [X] of the states of the exchange clients. *)
Class ExchangeClient (X : Type) : Type := {
  Exchange_Withdraw : Exchange -> Token -> Z -> string -> Z -> X ->
                      (string * error) * X;
  Exchange_CancelOrder : Exchange -> ActivityID -> X -> error * X
}.

(** The calls the core made to the exchanges. *)
Inductive ExchangeCall : Type :=
| CallWithdraw (exchange : ExchangeID) (token : Token) (amount : Z)
    (address : string) (timepoint : Z)
| CallCancelOrder (exchange : ExchangeID) (id : ActivityID).

(** The world of a command together with the exchange clients and the
    log of calls made to them. *)
Record Floor (S B X : Type) : Type := mkFloor {
  world : World S B;
  venues : X;
  exchangeCalls : list ExchangeCall
}.
Arguments mkFloor {S B X}.
Arguments world {S B X}.
Arguments venues {S B X}.
Arguments exchangeCalls {S B X}.

Section ExchangeCommands.
Context {S B X : Type} `{ActivityStorage S} `{ExchangeClient X}.

Variable FormatAmount : Z -> Z -> string.

(** [ReserveCore.rm], the address of the reserve. *)
Variable rm : string.

Local Open Scope cmd_scope.

Definition on_world {A} (m : M (World S B) A) : M (Floor S B X) A :=
  fun f =>
    let '(a, w') := m (world f) in
    (a, mkFloor w' (venues f) (exchangeCalls f)).

Definition exchange_Withdraw (exchange : Exchange) (token : Token)
    (amount : Z) (address : string) (timepoint : Z)
  : M (Floor S B X) (string * error) :=
  fun f =>
    let '(r, x') :=
      Exchange_Withdraw exchange token amount address timepoint (venues f) in
    (r, mkFloor (world f) x'
          (exchangeCalls f
           ++ [CallWithdraw (Exchange_ID exchange) token amount address
                 timepoint])).

Definition exchange_CancelOrder (exchange : Exchange) (id : ActivityID)
  : M (Floor S B X) error :=
  fun f =>
    let '(r, x') := Exchange_CancelOrder exchange id (venues f) in
    (r, mkFloor (world f) x'
          (exchangeCalls f ++ [CallCancelOrder (Exchange_ID exchange) id])).

(** [ReserveCore.CancelOrder]. *)
Definition CancelOrder (id : ActivityID) (exchange : Exchange)
  : M (Floor S B X) error :=
  exchange_CancelOrder exchange id.

(** [ReserveCore.Withdraw]; [now] is the reading of [time.Now()] that
    [timebasedID] takes. *)
Definition Withdraw (now : Z) (exchange : Exchange) (token : Token)
    (amount : Z) (timepoint : Z) : M (Floor S B X) (ActivityID * error) :=
  let '(_, supported) := Exchange_Address exchange token in
  let! '(id, err) :=
    (if negb supported then
       ret ("",
            Some (ErrorString ("Exchange " ++ Exchange_ID exchange
                    ++ " doesn't support token " ++ ID token)))
     else exchange_Withdraw exchange token amount rm timepoint) in
  let status := status_of err in
  let uid := timebasedID now id in
  let! _ := on_world
              (storage_Record "withdraw" uid (Exchange_ID exchange)
                 {[ "exchange" := VExchange exchange;
                    "token" := VToken token;
                    "amount" := VString (FormatAmount amount (Decimal token));
                    "timepoint" := VUint64 timepoint ]}
                 {[ "error" := VError err;
                    "id" := VString id;
                    "tx" := VString "" ]}
                 status "" timepoint) in
  ret (uid, err).

End ExchangeCommands.

End core.

(** ** package net/url: form values *)

Module url.

(** [url.Values], a [map[string][]string]. *)
Abbreviation Values := (gmap string (list string)).

Definition Get (v : Values) (key : string) : string :=
  match v !! key with
  | Some (x :: _) => x
  | _ => ""
  end.

(** [shouldEscape(c, encodeQueryComponent)]: letters, digits and
    [-_.~] pass, every other byte is escaped. *)
Definition shouldEscape (c : ascii) : bool :=
  let b := strconv.byte_of c in
  if ((65 <=? b) && (b <=? 90)) || ((97 <=? b) && (b <=? 122))
     || ((48 <=? b) && (b <=? 57)) then false
  else if (b =? 45) || (b =? 95) || (b =? 46) || (b =? 126) then false
  else true.

(** ["0123456789ABCDEF"[n]]. *)
Definition upperhex (n : Z) : ascii :=
  strconv.ascii_of (if n <? 10 then 48 + n else 55 + n).

Fixpoint QueryEscape (s : string) : string :=
  match s with
  | EmptyString => EmptyString
  | String c rest =>
      let b := strconv.byte_of c in
      if shouldEscape c then
        if b =? 32 then String "+"%char (QueryEscape rest)
        else String "%"%char
               (String (upperhex (Z.shiftr b 4))
                  (String (upperhex (Z.land b 15)) (QueryEscape rest)))
      else String c (QueryEscape rest)
  end.

(** [Values.Encode]: ["k=v"] pairs joined by ["&"], keys in the order
    of [sort.Strings]. *)
Definition Encode (v : Values) : string :=
  let keys := merge_sort String.le (map fst (map_to_list v)) in
  fold_left
    (fun buf k =>
       let vs := default [] (v !! k) in
       let prefix := QueryEscape k ++ "=" in
       fold_left
         (fun buf x =>
            (if Nat.ltb 0 (String.length buf) then buf ++ "&" else buf)
            ++ prefix ++ QueryEscape x)
         vs buf)
    keys "".

End url.

(** ** package http: the control plane *)

Module http.

(** JSON values the handlers put in a [gin.H]. *)
Inductive JSON : Type :=
| JBool (b : bool)
| JString (s : string)
| JUint (n : Z)
| JData (payload : string).

(** A call of [c.JSON(code, gin.H{...})]. *)
Definition Response : Type := Z * gmap string JSON.

Definition StatusOK : Z := 200.

(** What the handlers read of a [*gin.Context]: the form and the error
    [c.Request.ParseForm()] leaves, the request headers and the URL
    query. *)
Record Context : Type := mkContext {
  Request_Form : url.Values;
  ParseForm_err : error;
  Request_Header : gmap string string;
  URL_Query : url.Values;
  RouteParams : gmap string string
}.

(** [c.Param(key)], a path parameter of the route. *)
Definition Param (c : Context) (key : string) : string :=
  default "" (RouteParams c !! key).

Definition GetHeader (c : Context) (key : string) : string :=
  default "" (Request_Header c !! key).

Definition DefaultQuery (c : Context) (key defaultValue : string) : string :=
  match URL_Query c !! key with
  | Some (x :: _) => x
  | _ => defaultValue
  end.

(** The [Authentication] interface. *)
Class Authentication (A : Type) : Type := {
  KNSign : A -> string -> string
}.

(** A published snapshot as the [ReserveData] facade returns it; the
    payload is kept as the JSON text it marshals to. *)
Record Snapshot : Type := mkSnapshot {
  Version : Z;
  Timestamp : string;
  Data : string;
  Block : Z
}.

(** The read side of the [ReserveData] interface. *)
Class ReserveData (R : Type) : Type := {
  GetAllPrices : R -> Z -> Snapshot * error;
  GetOnePrice : R -> string -> Z -> Snapshot * error;
  GetAllRates : R -> Z -> Snapshot * error;
  GetAuthData : R -> Z -> Snapshot * error
}.

(** The calls a handler makes to the facade, with the timepoint it
    passes. *)
Inductive AppCall : Type :=
| CallGetAllPrices (timepoint : Z)
| CallGetOnePrice (pairID : string) (timepoint : Z)
| CallGetAllRates (timepoint : Z)
| CallGetAuthData (timepoint : Z).

Record HTTPServer (R A : Type) : Type := mkHTTPServer {
  app : R;
  authEnabled : bool;
  auth : A
}.
Arguments mkHTTPServer {R A}.
Arguments app {R A}.
Arguments authEnabled {R A}.
Arguments auth {R A}.

(** [err.Error()]. *)
Definition Error (e : goerror) : string :=
  match e with
  | ErrSyntax => "invalid syntax"
  | ErrRange => "value out of range"
  | ErrorString msg => msg
  end.

Definition MAX_TIMESPOT : Z := 18446744073709551615.

(** [getTimePoint]; [now] is the reading of the clock. *)
Definition getTimePoint (now : Z) (c : Context) (useDefault : bool) : Z :=
  let timestamp := DefaultQuery c "timestamp" "" in
  if String.eqb timestamp "" then
    if useDefault then MAX_TIMESPOT
    else to_uint64 (common.GetTimepoint now)
  else
    let '(timepoint, err) := strconv.ParseUint timestamp 10 64 in
    match err with
    | Some _ => MAX_TIMESPOT
    | None => timepoint
    end.

Definition IsIntime (now : Z) (nonce : string) : bool :=
  let serverTime := common.GetTimepoint now in
  let '(nonceInt, err) := strconv.ParseInt nonce 10 64 in
  match err with
  | Some _ => false
  | None =>
      let difference := to_int64 (nonceInt - to_int64 serverTime) in
      if (difference <? -10000) || (10000 <? difference) then false
      else true
  end.

Definition failure (reason : string) : Response :=
  (StatusOK, {[ "success" := JBool false; "reason" := JString reason ]}).

(** The reasons given in the responses written. *)
Definition reasons (written : list Response) : list (option JSON) :=
  map (fun r : Response => snd r !! "reason") written.

(** The first required parameter whose value is empty, if any: the
    loop over [requiredParams]. *)
Fixpoint missingParam (params : url.Values) (requiredParams : list string)
  : option string :=
  match requiredParams with
  | [] => None
  | p :: rest =>
      if String.eqb (url.Get params p) "" then Some p
      else missingParam params rest
  end.

(** [HTTPServer.Authenticated]: the form, the verdict, and the
    responses written. *)
Definition Authenticated {R A} `{Authentication A} (self : HTTPServer R A)
    (now : Z) (c : Context) (requiredParams : list string)
  : (url.Values * bool) * list Response :=
  match ParseForm_err c with
  | Some _ =>
      ((Request_Form c, false), [failure "Malformed request package"])
  | None =>
      if negb (authEnabled self) then ((Request_Form c, true), [])
      else
        let params := Request_Form c in
        if negb (IsIntime now (url.Get params "nonce")) then
          ((Request_Form c, false), [failure "Your nonce is invalid"])
        else
          match missingParam params requiredParams with
          | Some p =>
              ((Request_Form c, false),
               [failure ("Required param (" ++ p
                         ++ ") is missing. Param name is case sensitive")])
          | None =>
              let signed := GetHeader c "signed" in
              let message := url.Encode (Request_Form c) in
              let knsign := KNSign (auth self) message in
              if String.eqb signed knsign then ((params, true), [])
              else ((params, false), [failure "Invalid signed token"])
          end
  end.

Section Handlers.
Context {R A : Type} `{ReserveData R} `{Authentication A}.

(** The envelope of a served snapshot; [withBlock] is set by the
    handlers that also report the block. *)
Definition served (data : Snapshot) (key : string) (withBlock : bool) : Response :=
  let h : gmap string JSON :=
    {[ "success" := JBool true;
       "version" := JUint (Version data);
       "timestamp" := JString (Timestamp data);
       key := JData (Data data) ]} in
  (StatusOK, if withBlock then <[ "block" := JUint (Block data) ]> h else h).

Definition respond (r : Snapshot * error) (key : string) (withBlock : bool)
  : list Response :=
  match snd r with
  | Some e => [failure (Error e)]
  | None => [served (fst r) key withBlock]
  end.

(** [HTTPServer.AllPrices]: the facade calls made and the responses
    written. *)
Definition AllPrices (self : HTTPServer R A) (now : Z) (c : Context)
  : list AppCall * list Response :=
  let timepoint := getTimePoint now c true in
  ([CallGetAllPrices timepoint],
   respond (GetAllPrices (app self) timepoint) "data" true).

(** [common.NewTokenPair(base, quote)] followed by [PairID()]: the
    token registry is another package, the lookup is a
    parameter. *)
Variable NewTokenPair : string -> string -> string * error.

(** [HTTPServer.Price]. *)
Definition Price (self : HTTPServer R A) (now : Z) (c : Context)
  : list AppCall * list Response :=
  let base := Param c "base" in
  let quote := Param c "quote" in
  let '(pairID, err) := NewTokenPair base quote in
  match err with
  | Some _ => ([], [failure "Token pair is not supported"])
  | None =>
      let timepoint := getTimePoint now c true in
      ([CallGetOnePrice pairID timepoint],
       respond (GetOnePrice (app self) pairID timepoint) "exchanges" false)
  end.

(** [HTTPServer.GetRate]. *)
Definition GetRate (self : HTTPServer R A) (now : Z) (c : Context)
  : list AppCall * list Response :=
  let timepoint := getTimePoint now c true in
  ([CallGetAllRates timepoint],
   respond (GetAllRates (app self) timepoint) "data" false).

(** [HTTPServer.AuthData]; [now] is the clock reading of [Authenticated],
    [now'] the one of [getTimePoint]. *)
Definition AuthData (self : HTTPServer R A) (now now' : Z) (c : Context)
  : list AppCall * list Response :=
  let '((_, ok), written) := Authenticated self now c [] in
  if negb ok then ([], written)
  else
    let timepoint := getTimePoint now' c true in
    ([CallGetAuthData timepoint],
     (written ++ respond (GetAuthData (app self) timepoint) "data" false)%list).

End Handlers.

(** *** The rate-setting handler *)

Section SetRateHandler.
Context {R A S B : Type} `{Authentication A}
  `{core.ActivityStorage S} `{core.Blockchain.Interface B}.

(** [common.GetToken], the lookup in the token registry, and
    [hexutil.DecodeBig] belong to other packages: both are parameters,
    and so is [strconv.Quote], which a [strconv] error uses to print
    the text it refused. *)
Variable GetToken : string -> common.Token * error.
Variable DecodeBig : string -> Z * error.
Variable Quote : string -> string.








End SetRateHandler.

End http.

(** ** The clients of the control plane *)

Module clients.

(** The nonce of [GetActivitiesResponse] (cmd/comparerates): the
    clock's milliseconds, printed by [strconv.FormatInt]. *)
Definition comparerates_nonce (now : Z) : string :=
  strconv.FormatInt (to_int64 (Z.quot now 1000000)).

(** The nonce of [Verification.fillRequest]: ["%d"] of a [uint64]
    timepoint. *)
Definition fillRequest_nonce (timepoint : Z) : string :=
  strconv.FormatUint timepoint.

End clients.

(** ** Stand-ins for the collaborators

    The storage, the chain client, the signer and the data facade are
    interfaces of the code.  The theorems below hold for every
    implementation; the instances here are the ones the examples run on. *)

Module doubles.
Import common core http.

(** Modelled from the spec: the activity storage is not part of the
    sources at hand; the journal's [record] appends, and
    [has_pending_deposit] looks for a pending deposit record of the
    token on the exchange. *)
Definition journal_Record (action : string) (id : ActivityID)
    (destination : string) (params result : gmap string Value)
    (estatus mstatus : string) (timepoint : Z)
    (s : list ActivityRecord) : list ActivityRecord * error :=
  ((s ++ [mkActivityRecord action id destination params result estatus
            mstatus (strconv.FormatUint timepoint)])%list, None).

Definition deposit_of (token : Token) (exchange : Exchange)
    (r : ActivityRecord) : bool :=
  streq (Action r) "deposit"
  && streq (Destination r) (Exchange_ID exchange)
  && match Params r !! "token" with
     | Some (VToken t) => streq (ID t) (ID token)
     | _ => false
     end.

Definition journal_HasPendingDeposit (token : Token) (exchange : Exchange)
    (s : list ActivityRecord) : bool :=
  existsb (fun r => deposit_of token exchange r && IsPending r) s.

#[export] Instance list_journal : ActivityStorage (list ActivityRecord) :=
  {| Record_ := journal_Record;
     HasPendingDeposit := journal_HasPendingDeposit |}.

(** A chain client that accepts every transaction and numbers them. *)
Definition txhash (n : nat) : Hash :=
  mkHash ("0x" ++ strconv.FormatUint (Z.of_nat n)).

#[export] Instance counting_chain : Blockchain.Interface nat :=
  {| Blockchain.Send := fun _ _ _ n => ((txhash n, None), Datatypes.S n);
     Blockchain.SetRates := fun _ _ _ _ n => ((txhash n, None), Datatypes.S n) |}.

(** A chain client that refuses every transaction. *)
Inductive down : Type := Down.

#[export] Instance refusing_chain : Blockchain.Interface down :=
  {| Blockchain.Send := fun _ _ _ b =>
       ((zeroHash, Some (ErrorString "connection refused")), b);
     Blockchain.SetRates := fun _ _ _ _ b =>
       ((zeroHash, Some (ErrorString "connection refused")), b) |}.

(** An exchange client that accepts every withdrawal and numbers
    them, and knows no order to cancel. *)
#[export] Instance counting_exchange : ExchangeClient nat :=
  {| Exchange_Withdraw := fun _ _ _ _ _ n =>
       (("w" ++ strconv.FormatUint (Z.of_nat n), None), Datatypes.S n);
     Exchange_CancelOrder := fun _ _ n =>
       (Some (ErrorString "order not found"), n) |}.

(** Amounts that are whole multiples of the token unit print as
    integers. *)
Definition FormatAmount (amount decimal : Z) : string :=
  strconv.FormatUint (amount / 10 ^ decimal).

(** A signer that tags the message with its key. *)
#[export] Instance tagging_signer : Authentication string :=
  {| KNSign := fun key message => key ++ ":" ++ message |}.

(** A facade that serves one fixed snapshot. *)
#[export] Instance fixed_facade : ReserveData Snapshot :=
  {| GetAllPrices := fun snap _ => (snap, None);
     GetOnePrice := fun snap _ _ => (snap, None);
     GetAllRates := fun snap _ => (snap, None);
     GetAuthData := fun snap _ => (snap, None) |}.

Definition ETH : Token :=
  mkToken "ETH" "0xeeeeeeeeeeeeeeeeeeeeeeeeeeeeeeeeeeeeeeee" 18.
Definition KNC : Token :=
  mkToken "KNC" "0xdd974d5c2e2928dea5f71b9825b8b646686bd200" 18.
Definition OMG : Token :=
  mkToken "OMG" "0xd26114cd6ee289accf82350c8d8487fedb8a0c07" 18.

Definition binance : Exchange :=
  mkExchange "binance"
    (fun token =>
       if streq (ID token) "ETH"
       then ("0x44d34a119ba21a42167ff8b77a88f0fc7bb2db90", true)
       else ("", false)).

Definition server (enabled : bool) : HTTPServer Snapshot string :=
  mkHTTPServer (mkSnapshot 7 "1700000000000" "{}" 100) enabled "secret".

(** The reading of the clock in the examples: the server time is
    1700000000123 ms. *)
Definition now0 : Z := 1700000000123456789.

Definition request (form : url.Values) (signed : string)
    (query : url.Values) : Context :=
  mkContext form None {[ "signed" := signed ]} query ∅.

(** A request whose nonce is 15 s behind the server and whose
    signature is made up. *)
Definition staleForged : Context :=
  request {[ "nonce" := ["1699999985123"] ]} "bogus" ∅.

(** A request whose nonce is 5 s behind the server, signed with the
    server's key. *)
Definition signedCancel : Context :=
  request {[ "nonce" := ["1699999995123"]; "order_id" := ["17|x"] ]}
    "secret:nonce=1699999995123&order_id=17%7Cx" ∅.

(** The same request with another order id under the old signature. *)
Definition tamperedCancel : Context :=
  request {[ "nonce" := ["1699999995123"]; "order_id" := ["18|x"] ]}
    "secret:nonce=1699999995123&order_id=17%7Cx" ∅.

(** An unsigned request without any parameter. *)
Definition bare : Context := request ∅ "" ∅.

(** Requests that ask for a timestamp. *)
Definition at1234 : Context := request ∅ "" {[ "timestamp" := ["1234"] ]}.
Definition atNoon : Context := request ∅ "" {[ "timestamp" := ["noon"] ]}.

Definition pairOf (base quote : string) : string * error :=
  (base ++ "-" ++ quote, None).




(** A world whose journal holds one deposit of ETH to binance that is
    still being mined. *)
Definition pendingETH : ActivityRecord :=
  mkActivityRecord "deposit"
    (NewActivityID 1700000000000000000 "0x0|ETH|1") "binance"
    {[ "token" := VToken ETH ]} ∅ "" "submitted" "1700000000000".

Definition busy : World (list ActivityRecord) nat :=
  mkWorld [pendingETH] 1%nat [].

Definition idle : World (list ActivityRecord) nat :=
  mkWorld [] 0%nat [].

Definition quiet : Floor (list ActivityRecord) nat nat :=
  mkFloor idle 0%nat [].

(** Metric entries; a [float64] is stood for by the text it was parsed
    from. *)
Definition metricAt (t : Z) (tok mid spread : string)
  : metric.MetricEntry string :=
  metric.mkMetricEntry t {[ tok := metric.mkTokenMetric mid spread ]}.

(** A store whose entries were not stored in the order of their
    timestamps. *)
Definition shuffled : metric.RamMetricStorage string :=
  metric.mkRamMetricStorage
    [metricAt 50 "KNC" "0.5" "0.01"; metricAt 10 "KNC" "0.1" "0.01";
     metricAt 60 "KNC" "0.6" "0.01"].

(** The address of the reserve in the examples. *)
Definition reserve : string := "0x63825c174ab367968ec60f061753d3bbd36a0d8f".

(** An activity ID whose external id contains a bar. *)
Definition barredID : ActivityID :=
  NewActivityID 1700000000000 "0xabc|tail".

(** A finished trade: the exchange reported it done. *)
Definition doneTrade : ActivityRecord :=
  mkActivityRecord "trade" (NewActivityID 1700000000000000000 "order-1")
    "binance" ∅ ∅ "done" "" "1700000000000".

(** A trade whose mining status reads failed. *)
Definition oddTrade : ActivityRecord :=
  mkActivityRecord "trade" (NewActivityID 1700000000000000000 "order-2")
    "binance" ∅ ∅ "" "failed" "1700000000000".

(** A record of an action the journal does not know. *)
Definition cancelRecord : ActivityRecord :=
  mkActivityRecord "cancel" (NewActivityID 1700000000000000000 "order-3")
    "binance" ∅ ∅ "done" "mined" "1700000000000".

(** The four fields of a record the specification speaks of. *)
Definition summary (r : ActivityRecord) : string * string * string * string :=
  (Action r, Destination r, ExchangeStatus r, MiningStatus r).

End doubles.
(** * Properties *)

(** ** Activity records: the pending predicates *)

Module records.
Import common doubles.

(** Case analysis on every string comparison of the goal. *)
Ltac str_cases :=
  repeat match goal with
    | |- context [String.eqb ?x ?y] =>
        destruct (String.eqb_spec x y); subst; simpl;
        try discriminate; try congruence
    end.

Ltac unfold_pending :=
  unfold IsPending, IsExchangePending, IsBlockchainPending, streq, strne;
  simpl.

Lemma streq_true (a b : string) : streq a b = true <-> a = b.
Proof. unfold streq. apply String.eqb_eq. Qed.

Lemma strne_true (a b : string) : strne a b = true <-> a <> b.
Proof.
  unfold strne. destruct (String.eqb_spec a b); simpl; split;
    congruence.
Qed.

(** C2, as stated, fails: a finished trade is not pending, yet its
    blockchain-pending predicate holds, because [IsBlockchainPending]
    answers [true] for every action it has no case for. *)
Lemma IsPending_not_disjunction :
  ~ (forall r : ActivityRecord,
       IsPending r = true <->
       IsExchangePending r = true \/ IsBlockchainPending r = true).
Proof.
  intros Hall. destruct (Hall doneTrade) as [_ Hback].
  assert (Hp : IsPending doneTrade = true) by (apply Hback; right; reflexivity).
  vm_compute in Hp. discriminate.
Qed.

(** C2, amended: a withdraw, a deposit, or a record of an unknown
    action is pending exactly when its exchange-pending or its
    blockchain-pending predicate holds; a trade is pending exactly
    when it is exchange-pending, a set_rates record exactly when it is
    blockchain-pending. *)
Theorem IsPending_by_action (r : ActivityRecord) :
  IsPending r =
    if streq (Action r) "trade" then IsExchangePending r
    else if streq (Action r) "set_rates" then IsBlockchainPending r
    else IsExchangePending r || IsBlockchainPending r.
Proof.
  destruct r as [a i d p res E M t]. unfold_pending.
  destruct (String.eqb_spec a "withdraw") as [->|Hw]; simpl.
  - str_cases.
  - destruct (String.eqb_spec a "deposit") as [->|Hd]; simpl.
    + str_cases.
    + destruct (String.eqb_spec a "trade") as [->|Ht]; simpl.
      * str_cases.
      * destruct (String.eqb_spec a "set_rates") as [->|Hs]; simpl;
          [str_cases | reflexivity].
Qed.

(** C3, as stated, fails for trades: the mining status of a trade is
    not looked at. *)
Lemma trade_pending_ignores_mining :
  ~ (forall r : ActivityRecord,
       Action r = "trade" \/ Action r = "withdraw" ->
       (IsExchangePending r = true <->
        (ExchangeStatus r = "" \/ ExchangeStatus r = "submitted")
        /\ MiningStatus r <> "failed")).
Proof.
  intros Hall.
  destruct (Hall oddTrade (or_introl eq_refl)) as [Hfwd _].
  destruct (Hfwd eq_refl) as [_ Hm]. apply Hm. reflexivity.
Qed.

(** C3, amended: a withdraw is exchange-pending iff its exchange
    status is "" or "submitted" and its mining status is not "failed";
    a deposit iff its exchange status is "" or "pending" and its
    mining status is not "failed"; a trade iff its exchange status is
    "" or "submitted", whatever its mining status. *)
Theorem IsExchangePending_by_action (r : ActivityRecord) :
  (Action r = "withdraw" ->
   (IsExchangePending r = true <->
    (ExchangeStatus r = "" \/ ExchangeStatus r = "submitted")
    /\ MiningStatus r <> "failed"))
  /\ (Action r = "deposit" ->
      (IsExchangePending r = true <->
       (ExchangeStatus r = "" \/ ExchangeStatus r = "pending")
       /\ MiningStatus r <> "failed"))
  /\ (Action r = "trade" ->
      (IsExchangePending r = true <->
       ExchangeStatus r = "" \/ ExchangeStatus r = "submitted")).
Proof.
  destruct r as [a i d p res E M t]; simpl.
  split; [|split]; intros ->; unfold_pending;
    rewrite ?andb_true_iff, ?orb_true_iff, ?negb_true_iff,
      ?String.eqb_eq, ?String.eqb_neq; tauto.
Qed.

Lemma IsExchangePending_by_action_witness :
  (IsExchangePending oddTrade = true <->
   ExchangeStatus oddTrade = "" \/ ExchangeStatus oddTrade = "submitted").
Proof.
  apply (IsExchangePending_by_action oddTrade). reflexivity.
Defined.

(** C10: a record whose action is none of trade, deposit, withdraw
    and set_rates satisfies all three predicates, whatever its two
    status fields hold; it is never terminal. *)
Theorem unknown_action_always_pending (r : ActivityRecord) :
  Action r <> "trade" -> Action r <> "deposit" ->
  Action r <> "withdraw" -> Action r <> "set_rates" ->
  IsPending r = true /\ IsExchangePending r = true
  /\ IsBlockchainPending r = true.
Proof.
  destruct r as [a i d p res E M t]; simpl. intros Ht Hd Hw Hs.
  unfold_pending.
  apply String.eqb_neq in Ht, Hd, Hw, Hs. rewrite Ht, Hd, Hw, Hs.
  repeat split.
Qed.

Lemma unknown_action_always_pending_witness :
  IsPending cancelRecord = true /\ IsExchangePending cancelRecord = true
  /\ IsBlockchainPending cancelRecord = true.
Proof.
  apply (unknown_action_always_pending cancelRecord); discriminate.
Defined.

End records.

(** ** Decimal text: [strconv] parses what it prints *)

Module numerals.
Import strconv decimal.

Lemma cutoff10_val : cutoff10 = 1844674407370955162.
Proof. reflexivity. Qed.

Lemma maxVal64_val : maxVal64 = 18446744073709551615.
Proof. reflexivity. Qed.

Lemma pow10_0 : pow10 0 = 1.
Proof. reflexivity. Qed.

Lemma pow10_S (k : nat) : pow10 (Datatypes.S k) = 10 * pow10 k.
Proof.
  unfold pow10. rewrite Nat2Z.inj_succ, Z.pow_succ_r by lia. reflexivity.
Qed.

Lemma pow10_pos (k : nat) : 0 < pow10 k.
Proof. unfold pow10. apply Z.pow_pos_nonneg; lia. Qed.

Lemma pow10_le (j k : nat) : (j <= k)%nat -> pow10 j <= pow10 k.
Proof. intros Hjk. unfold pow10. apply Z.pow_le_mono_r; lia. Qed.

Lemma byte_of_range (c : ascii) : 0 <= byte_of c < 256.
Proof.
  unfold byte_of. pose proof (N_ascii_bounded c) as Hb. lia.
Qed.

Lemma byte_of_ascii_of (b : Z) : 0 <= b < 256 -> byte_of (ascii_of b) = b.
Proof.
  intros Hb. unfold byte_of, ascii_of.
  rewrite N_ascii_embedding by lia. lia.
Qed.

Lemma byte_of_inj (c d : ascii) : byte_of c = byte_of d -> c = d.
Proof.
  unfold byte_of. intros Heq.
  rewrite <- (ascii_N_embedding c), <- (ascii_N_embedding d).
  f_equal. lia.
Qed.

Lemma isDigit_range (c : ascii) :
  isDigit c = true <-> 48 <= byte_of c <= 57.
Proof. unfold isDigit. simpl. lia. Qed.

(** In base ten the digit test of [ParseUint] accepts exactly the
    bytes ['0'..'9']. *)
Lemma digitVal_digit (c : ascii) :
  isDigit c = true -> digitVal c = Some (byte_of c - 48).
Proof.
  intros Hd. unfold digitVal. unfold isDigit in Hd. simpl in *.
  rewrite Hd. reflexivity.
Qed.

Lemma digitVal_base10 (c : ascii) (v : Z) :
  digitVal c = Some v -> v < 10 -> isDigit c = true /\ v = byte_of c - 48.
Proof.
  unfold digitVal, isDigit. simpl. intros Hv Hlt.
  destruct ((48 <=? byte_of c) && (byte_of c <=? 57)) eqn:E1.
  - inversion Hv. split; reflexivity.
  - destruct ((97 <=? byte_of c) && (byte_of c <=? 122)) eqn:E2.
    + inversion Hv. lia.
    + destruct ((65 <=? byte_of c) && (byte_of c <=? 90)) eqn:E3.
      * inversion Hv. lia.
      * discriminate.
Qed.

Lemma value_bounds (s : string) :
  allDigits s = true -> 0 <= value s < pow10 (String.length s).
Proof.
  induction s as [|c rest IH]; simpl.
  - intros _. rewrite pow10_0. lia.
  - intros Hd. apply andb_true_iff in Hd as [Hc Hr].
    apply isDigit_range in Hc. specialize (IH Hr).
    rewrite pow10_S. pose proof (pow10_pos (String.length rest)). nia.
Qed.

(** What the loop of [ParseUint] computes on digits that fit. *)
Lemma parseLoop_digits (s : string) : forall n : Z,
  allDigits s = true -> 0 <= n ->
  n * pow10 (String.length s) + value s <= maxUint64 ->
  parseLoop 10 cutoff10 maxVal64 n s
  = (n * pow10 (String.length s) + value s, None).
Proof.
  induction s as [|c rest IH]; simpl; intros n Hd Hn Hfit.
  - rewrite pow10_0. f_equal. lia.
  - apply andb_true_iff in Hd as [Hc Hr].
    rewrite (digitVal_digit c Hc). apply isDigit_range in Hc.
    pose proof (value_bounds rest Hr) as Hv.
    pose proof (pow10_pos (String.length rest)) as Hp.
    rewrite pow10_S in Hfit |- *.
    remember (byte_of c - 48) as v eqn:Ev.
    assert (Hv10 : 0 <= v < 10) by lia.
    assert (Hn10 : n * 10 + v <= maxUint64) by nia.
    destruct (10 <=? v) eqn:E10; [lia|].
    assert (Hcut : (cutoff10 <=? n) = false).
    { apply Z.leb_gt. rewrite cutoff10_val. unfold maxUint64 in *. lia. }
    rewrite Hcut.
    assert (Hm1 : to_uint64 (n * 10) = n * 10).
    { unfold to_uint64, two64, maxUint64 in *. apply Z.mod_small. lia. }
    assert (Hm2 : to_uint64 (n * 10 + v) = n * 10 + v).
    { unfold to_uint64, two64, maxUint64 in *. apply Z.mod_small. lia. }
    rewrite Hm1, Hm2.
    assert (Hchk : (n * 10 + v <? n * 10) || (maxVal64 <? n * 10 + v) = false).
    { apply orb_false_iff. rewrite maxVal64_val. unfold maxUint64 in *. lia. }
    rewrite Hchk. rewrite IH by (try assumption; nia).
    f_equal. ring.
Qed.

(** Conversely, when the loop ends without error it has read digits
    only and their value fits. *)
Lemma parseLoop_nil (s : string) : forall n m : Z,
  0 <= n <= maxUint64 ->
  parseLoop 10 cutoff10 maxVal64 n s = (m, None) ->
  allDigits s = true
  /\ m = n * pow10 (String.length s) + value s
  /\ m <= maxUint64.
Proof.
  induction s as [|c rest IH]; simpl; intros n m Hn Hrun.
  - inversion Hrun. subst m. rewrite pow10_0. lia.
  - destruct (digitVal c) as [v|] eqn:Ev; [|discriminate].
    destruct (10 <=? v) eqn:E10; [discriminate|].
    apply Z.leb_gt in E10.
    destruct (digitVal_base10 c v Ev E10) as [Hc Hv].
    pose proof Hc as Hc'. apply isDigit_range in Hc'.
    destruct (cutoff10 <=? n) eqn:Ecut; [discriminate|].
    apply Z.leb_gt in Ecut. rewrite cutoff10_val in Ecut.
    assert (Hm1 : to_uint64 (n * 10) = n * 10).
    { unfold to_uint64, two64, maxUint64 in *. apply Z.mod_small. lia. }
    rewrite Hm1 in Hrun.
    destruct ((to_uint64 (n * 10 + v) <? n * 10)
              || (maxVal64 <? to_uint64 (n * 10 + v))) eqn:Echk;
      [discriminate|].
    apply orb_false_iff in Echk as [Ewrap Emax].
    apply Z.ltb_ge in Ewrap, Emax. rewrite maxVal64_val in Emax.
    assert (Hm2 : to_uint64 (n * 10 + v) = n * 10 + v).
    { unfold to_uint64, two64, maxUint64 in *.
      destruct (Z_lt_ge_dec (n * 10 + v) 18446744073709551616) as [Hlt|Hge].
      - apply Z.mod_small. lia.
      - exfalso.
        assert (Hw : (n * 10 + v) mod 18446744073709551616
                     = n * 10 + v - 18446744073709551616).
        { symmetry. apply (Z.mod_unique _ _ 1); lia. }
        lia. }
    rewrite Hm2 in *.
    apply IH in Hrun; [|unfold maxUint64 in *; lia].
    destruct Hrun as [Hr [Hm Hfit]].
    rewrite Hc, Hr, pow10_S. subst v m. repeat split; try assumption.
    ring.
Qed.

(** [ParseUint] in base ten accepts exactly the numerals whose value
    fits a [uint64], and returns that value. *)
Lemma ParseUint_numeral (s : string) :
  isNumeral s = true -> value s <= maxUint64 ->
  ParseUint s 10 64 = (value s, None).
Proof.
  unfold isNumeral. intros Hnum Hfit.
  apply andb_true_iff in Hnum as [Hne Hd].
  destruct s as [|c rest]; [discriminate|].
  unfold ParseUint. fold cutoff10 maxVal64.
  rewrite parseLoop_digits; try assumption; try lia.
  f_equal.
Qed.

Lemma ParseUint_nil (s : string) (n : Z) :
  ParseUint s 10 64 = (n, None) ->
  isNumeral s = true /\ n = value s /\ 0 <= n <= maxUint64.
Proof.
  destruct s as [|c rest]; [discriminate|].
  unfold ParseUint. fold cutoff10 maxVal64. intros Hrun.
  apply parseLoop_nil in Hrun; [|unfold maxUint64; lia].
  destruct Hrun as [Hd [Hn Hfit]]. unfold isNumeral.
  split; [rewrite Hd; reflexivity|].
  pose proof (value_bounds _ Hd). lia.
Qed.

(** *** Printing *)

Lemma formatBits_digits (fuel : nat) : forall (u : Z) (acc : string),
  0 <= u < pow10 fuel -> allDigits acc = true ->
  allDigits (formatBits fuel u acc) = true
  /\ value (formatBits fuel u acc)
     = u * pow10 (String.length acc) + value acc.
Proof.
  induction fuel as [|fuel IH]; intros u acc Hu Hacc.
  - rewrite pow10_0 in Hu. assert (u = 0) as -> by lia.
    simpl. split; [exact Hacc|lia].
  - simpl. destruct (u <? 10) eqn:Elt.
    + apply Z.ltb_lt in Elt. simpl.
      rewrite Hacc, andb_true_r.
      split.
      * apply isDigit_range. rewrite byte_of_ascii_of by lia. lia.
      * rewrite byte_of_ascii_of by lia. f_equal. ring.
    + apply Z.ltb_ge in Elt. rewrite pow10_S in Hu.
      pose proof (Z.mod_pos_bound u 10 ltac:(lia)) as Hmod.
      pose proof (Z.div_mod u 10 ltac:(lia)) as Hdm.
      destruct (IH (u / 10) (String (ascii_of (48 + u mod 10)) acc))
        as [Hd Hv].
      * split; [apply Z.div_pos; lia|].
        apply Z.div_lt_upper_bound; lia.
      * simpl. rewrite Hacc, andb_true_r. apply isDigit_range.
        rewrite byte_of_ascii_of by lia. lia.
      * split; [exact Hd|]. rewrite Hv. simpl.
        rewrite byte_of_ascii_of by lia. rewrite pow10_S. 
        pose proof (pow10_pos (String.length acc)). nia.
Qed.

(** The first byte printed is the leading digit: never ['0'] for a
    positive number. *)
Lemma formatBits_head (fuel : nat) : forall (u : Z) (acc : string),
  0 < u < pow10 fuel ->
  exists c rest, formatBits fuel u acc = String c rest
                 /\ 49 <= byte_of c <= 57.
Proof.
  induction fuel as [|fuel IH]; intros u acc Hu.
  - rewrite pow10_0 in Hu. lia.
  - simpl. destruct (u <? 10) eqn:Elt.
    + apply Z.ltb_lt in Elt. eexists _, _. split; [reflexivity|].
      rewrite byte_of_ascii_of by lia. lia.
    + apply Z.ltb_ge in Elt. rewrite pow10_S in Hu. apply IH.
      split.
      * apply Z.div_str_pos. lia.
      * apply Z.div_lt_upper_bound; lia.
Qed.

Lemma pow10_20 : pow10 20 = 100000000000000000000.
Proof. reflexivity. Qed.

Lemma FormatUint_value (u : Z) :
  0 <= u <= maxUint64 ->
  allDigits (FormatUint u) = true /\ value (FormatUint u) = u.
Proof.
  intros Hu. unfold FormatUint.
  destruct (formatBits_digits 20 u "") as [Hd Hv].
  - rewrite pow10_20. unfold maxUint64 in Hu. lia.
  - reflexivity.
  - split; [exact Hd|]. rewrite Hv. simpl. rewrite pow10_0. lia.
Qed.

Lemma FormatUint_canonical (u : Z) :
  0 <= u <= maxUint64 -> canonical (FormatUint u) = true.
Proof.
  intros Hu. destruct (FormatUint_value u Hu) as [Hd _].
  destruct (Z.eq_dec u 0) as [->|Hnz]; [reflexivity|].
  destruct (formatBits_head 20 u "") as (c & rest & Heq & Hc).
  - rewrite pow10_20. unfold maxUint64 in Hu. lia.
  - unfold FormatUint in *. rewrite Heq in *. unfold canonical.
    rewrite Hd. simpl.
    destruct (Ascii.eqb_spec c "0"%char) as [->|_]; [|reflexivity].
    change (byte_of "0"%char) with 48 in Hc. lia.
Qed.

Lemma canonical_numeral (s : string) :
  canonical s = true -> isNumeral s = true.
Proof.
  destruct s as [|c rest]; [discriminate|]. unfold canonical, isNumeral.
  intros Hc. apply andb_true_iff in Hc as [Hd _]. rewrite Hd. reflexivity.
Qed.

(** [ParseUint] reads back what [FormatUint] prints. *)
Lemma ParseUint_FormatUint (u : Z) :
  0 <= u <= maxUint64 -> ParseUint (FormatUint u) 10 64 = (u, None).
Proof.
  intros Hu. destruct (FormatUint_value u Hu) as [Hd Hv].
  pose proof (canonical_numeral _ (FormatUint_canonical u Hu)) as Hnum.
  rewrite ParseUint_numeral; rewrite ?Hv; try assumption; [reflexivity|lia].
Qed.

(** *** A number has one canonical numeral *)

Lemma digits_same_length (s : string) : forall t : string,
  allDigits s = true -> allDigits t = true ->
  String.length s = String.length t -> value s = value t -> s = t.
Proof.
  induction s as [|c rest IH]; intros [|d rest'] Hs Ht Hlen Hval;
    try reflexivity; try discriminate.
  simpl in *. apply andb_true_iff in Hs as [Hc Hr].
  apply andb_true_iff in Ht as [Hd Hr'].
  injection Hlen as Hlen. rewrite <- Hlen in Hval.
  pose proof (value_bounds rest Hr) as Hb.
  pose proof (value_bounds rest' Hr') as Hb'. rewrite <- Hlen in Hb'.
  pose proof (pow10_pos (String.length rest)) as Hp.
  assert (Hcd : byte_of c = byte_of d) by nia.
  apply byte_of_inj in Hcd. subst d. f_equal.
  apply IH; try assumption. lia.
Qed.

(** A numeral that starts with a digit other than ['0'] denotes a
    number with as many digits as it has bytes. *)
Lemma leading_digit_bound (c : ascii) (rest : string) :
  49 <= byte_of c <= 57 -> allDigits rest = true ->
  pow10 (String.length rest) <= value (String c rest).
Proof.
  intros Hc Hr. simpl. pose proof (value_bounds rest Hr).
  pose proof (pow10_pos (String.length rest)). nia.
Qed.

Lemma canonical_cases (s : string) :
  canonical s = true ->
  s = "0" \/ exists c rest, s = String c rest /\ 49 <= byte_of c <= 57
                            /\ allDigits rest = true.
Proof.
  destruct s as [|c rest]; [discriminate|]. unfold canonical.
  intros H. apply andb_true_iff in H as [Hd Hlead].
  simpl in Hd. apply andb_true_iff in Hd as [Hc Hr].
  apply isDigit_range in Hc.
  destruct (Ascii.eqb_spec c "0"%char) as [->|Hne]; simpl in Hlead.
  - apply String.eqb_eq in Hlead. subst rest. left. reflexivity.
  - right. exists c, rest. repeat split; try assumption; try lia.
    destruct (Z.eq_dec (byte_of c) 48) as [H48|]; [|lia].
    exfalso. apply Hne. apply byte_of_inj. exact H48.
Qed.

Lemma canonical_unique (s t : string) :
  canonical s = true -> canonical t = true -> value s = value t -> s = t.
Proof.
  intros Hs Ht Hval.
  pose proof (canonical_numeral s Hs) as Hns.
  pose proof (canonical_numeral t Ht) as Hnt.
  unfold isNumeral in Hns, Hnt.
  apply andb_true_iff in Hns as [_ Hds], Hnt as [_ Hdt].
  destruct (canonical_cases s Hs) as [->|(c & rs & -> & Hc & Hrs)];
    destruct (canonical_cases t Ht) as [->|(d & rt & -> & Hd & Hrt)].
  - reflexivity.
  - pose proof (leading_digit_bound d rt Hd Hrt) as Hb.
    pose proof (pow10_pos (String.length rt)).
    change (value "0") with 0 in Hval. lia.
  - pose proof (leading_digit_bound c rs Hc Hrs) as Hb.
    pose proof (pow10_pos (String.length rs)).
    change (value "0") with 0 in Hval. lia.
  - apply digits_same_length; try assumption.
    pose proof (leading_digit_bound c rs Hc Hrs) as Hbs.
    pose proof (leading_digit_bound d rt Hd Hrt) as Hbt.
    pose proof (value_bounds _ Hds) as Hus.
    pose proof (value_bounds _ Hdt) as Hut.
    simpl String.length in *. rewrite pow10_S in Hus, Hut.
    destruct (Nat.lt_trichotomy (String.length rs) (String.length rt))
      as [Hlt|[Heq|Hgt]].
    + pose proof (pow10_le (Datatypes.S (String.length rs)) (String.length rt)
                    ltac:(lia)) as Hle.
      rewrite pow10_S in Hle. lia.
    + congruence.
    + pose proof (pow10_le (Datatypes.S (String.length rt)) (String.length rs)
                    ltac:(lia)) as Hle.
      rewrite pow10_S in Hle. lia.
Qed.

(** [FormatUint] prints back a canonical numeral that [ParseUint]
    accepted. *)
Lemma FormatUint_ParseUint (s : string) (n : Z) :
  ParseUint s 10 64 = (n, None) -> canonical s = true -> FormatUint n = s.
Proof.
  intros Hparse Hcan. apply ParseUint_nil in Hparse as (_ & Hn & Hfit).
  destruct (FormatUint_value n Hfit) as [_ Hv].
  apply canonical_unique; try assumption.
  - apply FormatUint_canonical. exact Hfit.
  - lia.
Qed.

(** A numeral with a superfluous zero is read, but not printed back. *)
Lemma FormatUint_ParseUint_canonical (s : string) (n : Z) :
  ParseUint s 10 64 = (n, None) ->
  (FormatUint n = s <-> canonical s = true).
Proof.
  intros Hparse. split.
  - intros <-. apply FormatUint_canonical.
    apply ParseUint_nil in Hparse. tauto.
  - apply FormatUint_ParseUint. exact Hparse.
Qed.

(** *** Signed numerals *)

Lemma to_int64_small (x : Z) : - two63 <= x < two63 -> to_int64 x = x.
Proof.
  intros Hx. unfold to_int64, two63, two64 in *.
  rewrite Z.mod_small by lia. lia.
Qed.

Lemma to_uint64_small (x : Z) : 0 <= x <= maxUint64 -> to_uint64 x = x.
Proof.
  intros Hx. unfold to_uint64, two64, maxUint64 in *.
  apply Z.mod_small. lia.
Qed.

Lemma FormatUint_head_digit (u : Z) :
  0 <= u <= maxUint64 ->
  exists c rest, FormatUint u = String c rest /\ 48 <= byte_of c <= 57.
Proof.
  intros Hu. pose proof (FormatUint_canonical u Hu) as Hcan.
  destruct (FormatUint u) as [|c rest]; [discriminate|].
  exists c, rest. split; [reflexivity|].
  unfold canonical in Hcan. apply andb_true_iff in Hcan as [Hd _].
  simpl in Hd. apply andb_true_iff in Hd as [Hc _].
  apply isDigit_range. exact Hc.
Qed.

(** [ParseInt] reads back what [FormatInt] prints. *)
Lemma ParseInt_FormatInt (i : Z) :
  - two63 <= i < two63 -> ParseInt (FormatInt i) 10 64 = (i, None).
Proof.
  intros Hi. unfold FormatInt. destruct (i <? 0) eqn:Eneg.
  - apply Z.ltb_lt in Eneg.
    assert (Hu : 0 <= - i <= maxUint64) by (unfold two63, maxUint64 in *; lia).
    rewrite to_uint64_small by exact Hu.
    unfold ParseInt. simpl Ascii.eqb. cbv iota beta.
    rewrite ParseUint_FormatUint by exact Hu.
    change (2 ^ (64 - 1)) with two63.
    assert (Hc : (two63 <? - i) = false) by (apply Z.ltb_ge; lia).
    simpl negb. cbv iota beta. simpl andb. rewrite Hc.
    f_equal.
    destruct (Z.eq_dec (- i) two63) as [Heq|Hne].
    + rewrite Heq. assert (i = - two63) as -> by lia. reflexivity.
    + rewrite (to_int64_small (- i)) by lia.
      rewrite Z.opp_involutive. apply to_int64_small. lia.
  - apply Z.ltb_ge in Eneg.
    assert (Hu : 0 <= i <= maxUint64) by (unfold two63, maxUint64 in *; lia).
    destruct (FormatUint_head_digit i Hu) as (c & rest & Heq & Hc).
    pose proof (ParseUint_FormatUint i Hu) as Hparse.
    rewrite Heq in *. unfold ParseInt.
    destruct (Ascii.eqb_spec c "+"%char) as [->|_];
      [change (byte_of "+"%char) with 43 in Hc; lia|].
    destruct (Ascii.eqb_spec c "-"%char) as [->|_];
      [change (byte_of "-"%char) with 45 in Hc; lia|].
    rewrite Hparse. change (2 ^ (64 - 1)) with two63.
    assert (Hcut : (two63 <=? i) = false) by (apply Z.leb_gt; lia).
    simpl negb. simpl andb. rewrite Hcut.
    f_equal. apply to_int64_small. lia.
Qed.

End numerals.

(** ** Activity IDs: the text form *)

Module activity_id.
Import strconv strings decimal numerals common.

Lemma Split_cons (s : string) (sep : ascii) :
  exists p ps, Split s sep = p :: ps.
Proof.
  induction s as [|c rest IH]; simpl.
  - eexists _, _. reflexivity.
  - destruct (Ascii.eqb c sep); [eexists _, _; reflexivity|].
    destruct IH as (p & ps & ->). eexists _, _. reflexivity.
Qed.

(** A string without the separator is its own single piece. *)
Lemma Split_without (s : string) (sep : ascii) :
  contains s sep = false -> Split s sep = [s].
Proof.
  induction s as [|c rest IH]; simpl; [reflexivity|].
  intros H. apply orb_false_iff in H as [Hc Hr].
  rewrite Hc, IH by exact Hr. reflexivity.
Qed.

(** The first piece ends at the first separator. *)
Lemma Split_at_first (a b : string) (sep : ascii) :
  contains a sep = false ->
  Split (a ++ String sep b) sep = a :: Split b sep.
Proof.
  induction a as [|c rest IH]; simpl.
  - intros _. rewrite Ascii.eqb_refl. reflexivity.
  - intros H. apply orb_false_iff in H as [Hc Hr].
    rewrite Hc, IH by exact Hr. reflexivity.
Qed.

(** Joining the pieces with the separator restores the string. *)
Lemma Join_Split (s : string) (sep : ascii) :
  Join (Split s sep) (String sep "") = s.
Proof.
  induction s as [|c rest IH]; simpl; [reflexivity|].
  destruct (Ascii.eqb_spec c sep) as [->|Hne].
  - destruct (Split_cons rest sep) as (p & ps & Heq).
    rewrite Heq in *. simpl in *. rewrite IH. reflexivity.
  - destruct (Split_cons rest sep) as (p & ps & Heq).
    rewrite Heq in *. destruct ps as [|q ps]; simpl in *; rewrite <- IH;
      reflexivity.
Qed.

(** Two pieces or more: the first has no separator and the string is
    the first piece, a separator, and the remaining pieces joined. *)
Lemma Split_first (s : string) (sep : ascii) : forall p q ps,
  Split s sep = p :: q :: ps ->
  contains p sep = false
  /\ s = p ++ String sep (Join (q :: ps) (String sep "")).
Proof.
  induction s as [|c rest IH]; intros p q ps Heq; simpl in Heq;
    [discriminate|].
  destruct (Ascii.eqb_spec c sep) as [->|Hne].
  - injection Heq as <- Heq. split; [reflexivity|].
    rewrite <- Heq, Join_Split. reflexivity.
  - destruct (Split rest sep) as [|p' ps'] eqn:Hrest; [discriminate|].
    injection Heq as Hp' Hps'. subst p ps'.
    destruct (IH p' q ps eq_refl) as [Hp Hs]. split.
    + simpl. apply Ascii.eqb_neq in Hne. rewrite Hne, Hp. reflexivity.
    + rewrite Hs at 1. reflexivity.
Qed.

Lemma digits_without_bar (t : string) :
  allDigits t = true -> contains t "|"%char = false.
Proof.
  induction t as [|c rest IH]; simpl; [reflexivity|].
  intros H. apply andb_true_iff in H as [Hc Hr].
  rewrite IH by exact Hr. rewrite orb_false_r.
  apply isDigit_range in Hc. apply Ascii.eqb_neq. intros ->.
  change (byte_of "|"%char) with 124 in Hc. lia.
Qed.

(** What [StringToActivityID] does with a numeral, a bar and a
    remainder. *)
Lemma StringToActivityID_numeral (t rest : string) :
  isNumeral t = true -> value t <= maxUint64 ->
  StringToActivityID (t ++ "|" ++ rest) = (NewActivityID (value t) rest, None).
Proof.
  intros Hnum Hfit. unfold StringToActivityID.
  pose proof Hnum as Hnum'. unfold isNumeral in Hnum'.
  apply andb_true_iff in Hnum' as [_ Hd].
  change (t ++ "|" ++ rest) with (t ++ String "|"%char rest).
  rewrite Split_at_first by (apply digits_without_bar; exact Hd).
  destruct (Split_cons rest "|"%char) as (p & ps & Heq).
  pose proof (Join_Split rest "|"%char) as Hjoin.
  rewrite Heq in *. simpl length. simpl hd. simpl tl.
  rewrite ParseUint_numeral by assumption.
  rewrite Hjoin.
  destruct (Z.of_nat (Datatypes.S (Datatypes.S (length ps))) <? 2) eqn:E;
    [apply Z.ltb_lt in E; lia | reflexivity].
Qed.

(** The strings [StringToActivityID] accepts. *)
Lemma StringToActivityID_nil (s : string) (id : ActivityID) :
  StringToActivityID s = (id, None) ->
  let t := hd "" (Split s "|"%char) in
  s = t ++ "|" ++ EID id /\ isNumeral t = true
  /\ value t = Timepoint id /\ 0 <= Timepoint id <= maxUint64.
Proof.
  unfold StringToActivityID.
  destruct (Split s "|"%char) as [|p [|q ps]] eqn:Hsplit;
    simpl length; simpl hd; simpl tl; try discriminate.
  destruct (Z.of_nat (Datatypes.S (Datatypes.S (length ps))) <? 2) eqn:E;
    [discriminate|].
  destruct (ParseUint p 10 64) as [n [e|]] eqn:Hparse; [discriminate|].
  intros Hid. injection Hid as <-. simpl.
  apply ParseUint_nil in Hparse as (Hnum & Hn & Hfit).
  destruct (Split_first s "|"%char p q ps Hsplit) as [_ Hs].
  repeat split; try assumption; try lia.
Qed.

(** C4, as stated, fails on a timepoint written with leading zeros:
    the string is accepted, and printed back without them. *)
Lemma leading_zeros_not_restored :
  ~ (forall t rest : string,
       isNumeral t = true -> value t <= maxUint64 ->
       fst (MarshalText (fst (StringToActivityID (t ++ "|" ++ rest))))
       = t ++ "|" ++ rest).
Proof.
  intros Hall.
  specialize (Hall "007" "x" eq_refl ltac:(vm_compute; discriminate)).
  vm_compute in Hall. discriminate.
Qed.

(** C4, amended: parsing the text of an ActivityID gives the ID back,
    bars in the external id included; a string that parses is printed
    back unchanged exactly when its timepoint part is the canonical
    numeral, without superfluous leading zeros; a string without a
    bar, or whose part before the first bar is not a decimal numeral,
    is rejected with an error. *)
Theorem ActivityID_text_roundtrip (id self : ActivityID) (s : string) :
  (0 <= Timepoint id <= maxUint64 ->
   snd (MarshalText id) = None
   /\ StringToActivityID (fst (MarshalText id)) = (id, None)
   /\ UnmarshalText self (fst (MarshalText id)) = (id, None))
  /\ (StringToActivityID s = (id, None) ->
      (fst (MarshalText id) = s
       <-> canonical (hd "" (Split s "|"%char)) = true))
  /\ (contains s "|"%char = false -> snd (StringToActivityID s) <> None)
  /\ (isNumeral (hd "" (Split s "|"%char)) = false ->
      snd (StringToActivityID s) <> None).
Proof.
  split; [|split; [|split]].
  - intros Hfit. destruct id as [tp eid]. simpl in Hfit.
    destruct (FormatUint_value tp Hfit) as [Hd Hv].
    pose proof (canonical_numeral _ (FormatUint_canonical tp Hfit)) as Hnum.
    assert (Hparse : StringToActivityID (fst (MarshalText (NewActivityID tp eid)))
                     = (NewActivityID tp eid, None)).
    { unfold MarshalText. simpl fst. simpl Timepoint. simpl EID.
      rewrite StringToActivityID_numeral; rewrite ?Hv; try assumption;
        [reflexivity | lia]. }
    split; [reflexivity|]. split; [exact Hparse|].
    unfold UnmarshalText. rewrite Hparse. reflexivity.
  - intros Hparse.
    destruct (StringToActivityID_nil s id Hparse) as (Hs & Hnum & Hval & Hfit).
    simpl in Hs, Hnum, Hval.
    remember (hd "" (Split s "|"%char)) as t eqn:Ht.
    assert (Hp : ParseUint t 10 64 = (Timepoint id, None)).
    { rewrite ParseUint_numeral; rewrite ?Hval; try assumption;
        [reflexivity | lia]. }
    unfold MarshalText. simpl fst. split.
    + intros Hm. apply (FormatUint_ParseUint_canonical t _ Hp).
      rewrite Hs in Hm.
      apply (f_equal (fun x => hd "" (Split x "|"%char))) in Hm.
      change (?a ++ "|" ++ ?b) with (a ++ String "|"%char b) in Hm.
      destruct (FormatUint_value _ Hfit) as [Hd _].
      unfold isNumeral in Hnum. apply andb_true_iff in Hnum as [_ Hdt].
      rewrite !Split_at_first in Hm by (apply digits_without_bar; assumption).
      exact Hm.
    + intros Hcan. rewrite (FormatUint_ParseUint t _ Hp Hcan).
      symmetry. exact Hs.
  - intros Hbar. unfold StringToActivityID.
    rewrite Split_without by exact Hbar. simpl. discriminate.
  - intros Hnot. destruct (StringToActivityID s) as [id' [e|]] eqn:Hparse;
      simpl; [discriminate|].
    destruct (StringToActivityID_nil s id' Hparse) as (_ & Hnum & _).
    congruence.
Qed.

Lemma ActivityID_text_roundtrip_witness :
  StringToActivityID "1700000000000|0xabc|tail" = (doubles.barredID, None)
  /\ fst (MarshalText doubles.barredID) = "1700000000000|0xabc|tail"
  /\ snd (StringToActivityID "1700000000000") <> None
  /\ snd (StringToActivityID "17e11|0xabc") <> None.
Proof.
  pose proof (ActivityID_text_roundtrip doubles.barredID doubles.barredID
                "1700000000000|0xabc|tail") as (Hprint & Hback & _ & _).
  pose proof (ActivityID_text_roundtrip doubles.barredID doubles.barredID
                "1700000000000") as (_ & _ & Hbar & _).
  pose proof (ActivityID_text_roundtrip doubles.barredID doubles.barredID
                "17e11|0xabc") as (_ & _ & _ & Hnum).
  destruct Hprint as (_ & Hparse & _);
    [vm_compute; split; discriminate|].
  split; [exact Hparse|].
  split; [apply (Hback Hparse); reflexivity|].
  split; [apply Hbar; reflexivity | apply Hnum; reflexivity].
Defined.

End activity_id.

(** ** Reserve core: deposits and rate updates *)

Module commands.
Import common core doubles.

Section AnyCollaborators.
Context {S B : Type} `{ActivityStorage S} `{Blockchain.Interface B}.
Variable FormatAmount : Z -> Z -> string.

(** C1, amended: while the journal reports a pending deposit of the
    token to the exchange, [Deposit] returns an error and asks the
    chain for nothing, and it appends one record to the journal: a
    deposit with the zero transaction hash, exchange status "" and
    mining status "failed". *)
Theorem Deposit_while_pending (now : Z) (exchange : Exchange)
    (token : Token) (amount timepoint : Z) (w : World S B) :
  HasPendingDeposit token exchange (storage w) = true ->
  let out := Deposit FormatAmount now exchange token amount timepoint w in
  let uid := fst (fst out) in
  let err := snd (fst out) in
  let w' := snd out in
  err <> None
  /\ chainCalls w' = chainCalls w
  /\ chain w' = chain w
  /\ uid = timebasedID now
             (Hex zeroHash ++ "|" ++ ID token ++ "|"
              ++ FormatAmount amount (Decimal token))
  /\ storage w'
     = fst (Record_ "deposit" uid (Exchange_ID exchange)
              {[ "exchange" := VExchange exchange;
                 "token" := VToken token;
                 "amount" := VString (FormatAmount amount (Decimal token));
                 "timepoint" := VUint64 timepoint ]}
              {[ "tx" := VString (Hex zeroHash);
                 "error" := VError err ]}
              "" "failed" timepoint (storage w)).
Proof.
  intros Hpending. unfold Deposit.
  destruct (Exchange_Address exchange token) as [address supported].
  destruct supported; simpl negb; cbv iota.
  - unfold bind, storage_HasPendingDeposit, storage_Record, ret.
    rewrite Hpending. simpl.
    destruct (Record_ _ _ _ _ _ _ _ _ _) as [s' e] eqn:Hrec. simpl.
    unfold status_of in Hrec. simpl in Hrec.
    repeat split; try discriminate. rewrite Hrec. reflexivity.
  - unfold bind, storage_Record, ret. simpl.
    destruct (Record_ _ _ _ _ _ _ _ _ _) as [s' e] eqn:Hrec. simpl.
    unfold status_of in Hrec. simpl in Hrec.
    repeat split; try discriminate. rewrite Hrec. reflexivity.
Qed.

End AnyCollaborators.

Section AnyChain.
Context {S B : Type} `{ActivityStorage S} `{Blockchain.Interface B}.

(** C5: with lists of different lengths [SetRates] returns an error
    and the chain client is not called; with lists of one length it
    is called once, and the record written has action "set_rates",
    destination "blockchain", exchange status "" and mining status
    "submitted" or, when the client returned an error, "failed". *)
Theorem SetRates_lengths (now now' : Z) (tokens : list Token)
    (buys sells : list Z) (block : Z) (w : World S B) :
  let out := SetRates now now' tokens buys sells block w in
  let uid := fst (fst out) in
  let err := snd (fst out) in
  let w' := snd out in
  let addrs := map (fun token => HexToAddress (Address token)) tokens in
  let sent := Blockchain.SetRates addrs buys sells block (chain w) in
  (length tokens <> length buys \/ length tokens <> length sells ->
   err <> None /\ chainCalls w' = chainCalls w /\ chain w' = chain w)
  /\ (length tokens = length buys -> length tokens = length sells ->
      chainCalls w'
      = (chainCalls w ++ [CallSetRates addrs buys sells block])%list
      /\ chain w' = snd sent
      /\ err = snd (fst sent)
      /\ uid = timebasedID now (Hex (fst (fst sent)))
      /\ storage w'
         = fst (Record_ "set_rates" uid "blockchain"
                  {[ "tokens" := VTokens tokens;
                     "buys" := VBigInts buys;
                     "sells" := VBigInts sells;
                     "block" := VBigInt block ]}
                  {[ "tx" := VString (Hex (fst (fst sent)));
                     "error" := VError err ]}
                  ""
                  (if is_nil (snd (fst sent)) then "submitted" else "failed")
                  (GetTimepoint now') (storage w))).
Proof.
  unfold SetRates. split.
  - intros Hdiff.
    assert (Hchk : negb (Nat.eqb (length tokens) (length buys))
                   || negb (Nat.eqb (length tokens) (length sells)) = true).
    { apply orb_true_iff. rewrite !negb_true_iff, !Nat.eqb_neq. exact Hdiff. }
    rewrite Hchk. unfold bind, storage_Record, ret. simpl.
    destruct (Record_ _ _ _ _ _ _ _ _ _) as [s' e]. simpl.
    repeat split. discriminate.
  - intros Hb Hs.
    assert (Hchk : negb (Nat.eqb (length tokens) (length buys))
                   || negb (Nat.eqb (length tokens) (length sells)) = false).
    { apply orb_false_iff. rewrite !negb_false_iff, !Nat.eqb_eq. tauto. }
    rewrite Hchk. unfold bind, blockchain_SetRates, storage_Record, ret.
    destruct (Blockchain.SetRates _ buys sells block (chain w)) as [[tx cerr] b'].
    simpl.
    destruct (Record_ _ _ _ _ _ _ _ _ _) as [s' e] eqn:Hrec. simpl.
    unfold status_of in Hrec. rewrite Hrec. repeat split.
Qed.

End AnyChain.

(** C1, as stated, fails: the rejected deposit is written to the
    journal, so the call does have a side effect. *)
Lemma rejected_deposit_is_recorded :
  HasPendingDeposit ETH binance (storage busy) = true
  /\ storage (snd (Deposit doubles.FormatAmount 1700000000123456789
                     binance ETH (10 ^ 18) 1700000000123 busy))
     <> storage busy.
Proof.
  split; [reflexivity|].
  intros Heq. apply (f_equal (@length _)) in Heq.
  vm_compute in Heq. discriminate.
Qed.

Lemma Deposit_while_pending_witness :
  snd (fst (Deposit doubles.FormatAmount 1700000000123456789
              binance ETH (10 ^ 18) 1700000000123 busy)) <> None
  /\ chainCalls (snd (Deposit doubles.FormatAmount 1700000000123456789
                        binance ETH (10 ^ 18) 1700000000123 busy)) = [].
Proof.
  pose proof (Deposit_while_pending doubles.FormatAmount
                1700000000123456789 binance ETH (10 ^ 18) 1700000000123
                busy eq_refl) as (Herr & Hcalls & _).
  split; [exact Herr | exact Hcalls].
Defined.

Lemma SetRates_lengths_witness :
  snd (fst (SetRates 1700000000123456789 1700000000153456789
              [KNC; OMG] [1] [1; 2] 1 idle)) <> None
  /\ chainCalls (snd (SetRates 1700000000123456789 1700000000153456789
                        [KNC; OMG] [1] [1; 2] 1 idle)) = []
  /\ chainCalls (snd (SetRates 1700000000123456789 1700000000153456789
                        [KNC; OMG] [1; 2] [1; 2] 1 idle))
     = [CallSetRates [Address KNC; Address OMG] [1; 2] [1; 2] 1].
Proof.
  pose proof (SetRates_lengths 1700000000123456789 1700000000153456789
                [KNC; OMG] [1] [1; 2] 1 idle) as [Hbad _].
  pose proof (SetRates_lengths 1700000000123456789 1700000000153456789
                [KNC; OMG] [1; 2] [1; 2] 1 idle) as [_ Hgood].
  destruct Hbad as (Herr & Hcalls & _); [left; simpl; lia|].
  destruct (Hgood eq_refl eq_refl) as (Hcall & _).
  split; [exact Herr|]. split; [exact Hcalls | exact Hcall].
Defined.

End commands.

(** ** The control plane: nonce window, signature check, served timepoint *)

Module control_plane.
Import strconv decimal numerals common http doubles.

Lemma to_int64_range (x : Z) : - two63 <= to_int64 x < two63.
Proof.
  unfold to_int64, two63, two64.
  pose proof (Z.mod_pos_bound (x + 9223372036854775808)
                18446744073709551616 ltac:(lia)). lia.
Qed.

(** A nonce that [ParseInt] accepts is an [int64]. *)
Lemma ParseInt_nil_range (s : string) (n : Z) :
  ParseInt s 10 64 = (n, None) -> - two63 <= n < two63.
Proof.
  unfold ParseInt. destruct s as [|c0 rest]; [discriminate|].
  destruct (if Ascii.eqb c0 "+"%char then (false, rest)
            else if Ascii.eqb c0 "-"%char then (true, rest)
            else (false, String c0 rest)) as [neg s1].
  destruct (ParseUint s1 10 64) as [un [[| |msg]|]]; try discriminate.
  - destruct (negb neg && (2 ^ (64 - 1) <=? un)); [discriminate|].
    destruct (neg && (2 ^ (64 - 1) <? un)); [discriminate|].
    intros Heq. injection Heq as <-.
    destruct neg; apply to_int64_range.
  - destruct (negb neg && (2 ^ (64 - 1) <=? un)); [discriminate|].
    destruct (neg && (2 ^ (64 - 1) <? un)); [discriminate|].
    intros Heq. injection Heq as <-.
    destruct neg; apply to_int64_range.
Qed.

Lemma serverMillis_range (now : Z) :
  - two63 <= now < two63 ->
  - 9223372036855 <= serverMillis now <= 9223372036855.
Proof.
  unfold serverMillis, two63. intros Hnow.
  Z.quot_rem_to_equations. lia.
Qed.

(** Converting the timepoint back to [int64] gives the clock's
    milliseconds. *)
Lemma int64_GetTimepoint (now : Z) :
  - two63 <= now < two63 ->
  to_int64 (GetTimepoint now) = serverMillis now.
Proof.
  intros Hnow. pose proof (serverMillis_range now Hnow) as Hr.
  unfold GetTimepoint. fold (serverMillis now).
  unfold to_int64, to_uint64, two63, two64.
  Z.div_mod_to_equations. lia.
Qed.

(** The wrapped difference lies in the window exactly when the true
    difference does. *)
Lemma window_no_wrap (n t : Z) :
  - two63 <= n < two63 -> - 9223372036855 <= t <= 9223372036855 ->
  (- 10000 <= to_int64 (n - t) <= 10000 <-> - 10000 <= n - t <= 10000).
Proof.
  unfold to_int64, two63, two64. intros Hn Ht.
  Z.div_mod_to_equations. lia.
Qed.

Lemma IsIntime_true (now : Z) (nonce : string) :
  - two63 <= now < two63 ->
  (IsIntime now nonce = true <->
   exists n, ParseInt nonce 10 64 = (n, None)
             /\ - 10000 <= n - serverMillis now <= 10000).
Proof.
  intros Hnow. unfold IsIntime.
  rewrite (int64_GetTimepoint now Hnow).
  pose proof (serverMillis_range now Hnow) as Hr.
  destruct (ParseInt nonce 10 64) as [n [e|]] eqn:Hparse.
  - split; [discriminate|]. intros (m & Hm & _). discriminate.
  - pose proof (ParseInt_nil_range nonce n Hparse) as Hn.
    pose proof (window_no_wrap n (serverMillis now) Hn Hr) as Hw.
    destruct ((to_int64 (n - serverMillis now) <? -10000)
              || (10000 <? to_int64 (n - serverMillis now))) eqn:Eout.
    + split; [discriminate|]. intros (m & Hm & Hin).
      injection Hm as <-. apply orb_true_iff in Eout. lia.
    + split; [|reflexivity]. intros _. exists n. split; [reflexivity|].
      apply orb_false_iff in Eout. lia.
Qed.

Lemma missingParam_None (params : url.Values) (required : list string) :
  missingParam params required = None
  <-> Forall (fun p => url.Get params p <> "") required.
Proof.
  induction required as [|p rest IH]; simpl.
  - split; [constructor | reflexivity].
  - destruct (String.eqb_spec (url.Get params p) "") as [Hempty|Hfull].
    + split; [discriminate|]. intros Hall. inversion Hall. contradiction.
    + rewrite IH. split.
      * intros Hrest. constructor; assumption.
      * intros Hall. inversion Hall. assumption.
Qed.

Section AnyServer.
Context {R A : Type} `{ReserveData R} `{Authentication A}.

(** C7: the nonce check accepts exactly the nonces that parse as a
    signed 64-bit integer no more than 10000 ms away from the
    server time, both ends included; a rejected nonce is answered
    with "Your nonce is invalid"; a nonce 15000 ms behind is
    rejected and one 5000 ms behind is accepted. *)
Theorem IsIntime_window (now : Z) (nonce : string)
    (self : HTTPServer R A) (c : Context) (required : list string) :
  - two63 <= now < two63 ->
  (IsIntime now nonce = true <->
   exists n, ParseInt nonce 10 64 = (n, None)
             /\ - 10000 <= n - serverMillis now <= 10000)
  /\ (authEnabled self = true -> ParseForm_err c = None ->
      url.Get (Request_Form c) "nonce" = nonce ->
      IsIntime now nonce = false ->
      Authenticated self now c required
      = ((Request_Form c, false), [failure "Your nonce is invalid"]))
  /\ IsIntime now (FormatInt (serverMillis now - 15000)) = false
  /\ IsIntime now (FormatInt (serverMillis now - 5000)) = true.
Proof.
  intros Hnow. pose proof (serverMillis_range now Hnow) as Hr.
  split; [apply IsIntime_true; exact Hnow|]. split; [|split].
  - intros Hon Hform Hnonce Hout. unfold Authenticated.
    rewrite Hform, Hon, Hnonce, Hout. reflexivity.
  - destruct (IsIntime now (FormatInt (serverMillis now - 15000)))
      eqn:Hin; [|reflexivity].
    apply IsIntime_true in Hin; [|exact Hnow].
    destruct Hin as (n & Hparse & Hwin).
    rewrite ParseInt_FormatInt in Hparse by (unfold two63; lia).
    injection Hparse as <-. lia.
  - apply IsIntime_true; [exact Hnow|].
    exists (serverMillis now - 5000).
    rewrite ParseInt_FormatInt by (unfold two63; lia).
    split; [reflexivity | lia].
Qed.

(** C6, amended: with authentication on, [Authenticated] lets a request
    through exactly when the form parsed, the nonce is in time,
    every required parameter is non-empty and the signed header is
    the signature of the encoded form; a request that passes the
    first three checks with any other signed header is answered
    with "Invalid signed token". *)
Theorem Authenticated_verdict (self : HTTPServer R A) (now : Z)
    (c : Context) (required : list string) :
  authEnabled self = true ->
  let form := Request_Form c in
  let passes :=
    ParseForm_err c = None
    /\ IsIntime now (url.Get form "nonce") = true
    /\ Forall (fun p => url.Get form p <> "") required in
  let signature := KNSign (auth self) (url.Encode form) in
  (snd (fst (Authenticated self now c required)) = true
   <-> passes /\ GetHeader c "signed" = signature)
  /\ (passes -> GetHeader c "signed" = signature ->
      Authenticated self now c required = ((form, true), []))
  /\ (passes -> GetHeader c "signed" <> signature ->
      Authenticated self now c required
      = ((form, false), [failure "Invalid signed token"])).
Proof.
  intros Hon form passes signature. subst form passes signature.
  unfold Authenticated. rewrite Hon. simpl negb. cbv iota.
  destruct (ParseForm_err c) as [e|] eqn:Hform.
  { simpl. split; [|split]; try (intros [? _]; discriminate).
    split; [discriminate|]. intros [[? _] _]. discriminate. }
  destruct (IsIntime now (url.Get (Request_Form c) "nonce")) eqn:Hin;
    simpl negb; cbv iota.
  2:{ simpl. split; [|split]; try (intros (_ & ? & _); discriminate).
      split; [discriminate|]. intros [(_ & ? & _) _]. discriminate. }
  destruct (missingParam (Request_Form c) required) as [p|] eqn:Hmiss.
  { assert (Hnot : ~ Forall (fun p => url.Get (Request_Form c) p <> "")
                     required).
    { intros Hall. apply missingParam_None in Hall. congruence. }
    simpl. split; [|split]; try (intros (_ & _ & ?); contradiction).
    split; [discriminate|]. intros [(_ & _ & ?) _]. contradiction. }
  apply missingParam_None in Hmiss.
  destruct (String.eqb_spec (GetHeader c "signed")
              (KNSign (auth self) (url.Encode (Request_Form c))))
    as [Hsig|Hsig]; simpl.
  - split; [|split]; tauto.
  - split; [|split].
    + split; [discriminate|]. intros [_ ?]. contradiction.
    + intros _ ?. contradiction.
    + reflexivity.
Qed.

(** C9: with authentication off the verdict of [Authenticated] is the
    outcome of form parsing alone; neither the nonce, nor the
    required parameters, nor the signed header is looked at. *)
Theorem Authenticated_disabled (self : HTTPServer R A) (now : Z)
    (c : Context) (required : list string) :
  authEnabled self = false ->
  Authenticated self now c required
  = match ParseForm_err c with
    | Some _ => ((Request_Form c, false),
                 [failure "Malformed request package"])
    | None => ((Request_Form c, true), [])
    end.
Proof.
  intros Hoff. unfold Authenticated. rewrite Hoff. reflexivity.
Qed.

(** C8, amended: a snapshot-serving handler ([AllPrices], [Price],
    [GetRate], [AuthData]) passes the facade the sentinel
    [MAX_TIMESPOT] when the timestamp parameter is absent, and also
    when it is present but is not an unsigned 64-bit numeral; it
    passes the parsed value when there is one.  The current time is
    the default of the command handlers only, which call
    [getTimePoint] with [useDefault = false]. *)
Theorem snapshot_timepoint (NewTokenPair : string -> string -> string * error)
    (self : HTTPServer R A) (now now' : Z) (c : Context) :
  let served := getTimePoint now c true in
  fst (AllPrices self now c) = [CallGetAllPrices served]
  /\ fst (GetRate self now c) = [CallGetAllRates served]
  /\ (forall pairID, NewTokenPair (Param c "base") (Param c "quote")
                     = (pairID, None) ->
      fst (Price NewTokenPair self now c) = [CallGetOnePrice pairID served])
  /\ (snd (fst (Authenticated self now c [])) = true ->
      fst (AuthData self now now' c)
      = [CallGetAuthData (getTimePoint now' c true)])
  /\ (URL_Query c !! "timestamp" = None ->
      served = MAX_TIMESPOT
      /\ getTimePoint now c false = GetTimepoint now)
  /\ (forall ts more n e,
        URL_Query c !! "timestamp" = Some (ts :: more) ->
        ParseUint ts 10 64 = (n, Some e) -> served = MAX_TIMESPOT)
  /\ (forall ts more n,
        URL_Query c !! "timestamp" = Some (ts :: more) ->
        ParseUint ts 10 64 = (n, None) -> served = n).
Proof.
  intros served. subst served.
  split; [reflexivity|]. split; [reflexivity|]. split; [|split; [|split; [|split]]].
  - intros pairID Hpair. unfold Price. rewrite Hpair. reflexivity.
  - intros Hok. unfold AuthData.
    destruct (Authenticated self now c []) as [[form ok] written].
    simpl in Hok. subst ok. reflexivity.
  - intros Habsent. unfold getTimePoint, DefaultQuery. rewrite Habsent.
    simpl. split; [reflexivity|]. unfold GetTimepoint, to_uint64, two64.
    apply Z.mod_small. apply Z.mod_pos_bound. lia.
  - intros ts more n e Hq Hparse. unfold getTimePoint, DefaultQuery.
    rewrite Hq. destruct (String.eqb ts ""); [reflexivity|].
    rewrite Hparse. reflexivity.
  - intros ts more n Hq Hparse. unfold getTimePoint, DefaultQuery.
    rewrite Hq. destruct (String.eqb_spec ts "") as [->|_];
      [discriminate|].
    rewrite Hparse. reflexivity.
Qed.

End AnyServer.

(** C6, as stated, fails: a forged signature on a stale nonce is
    answered with the nonce's reason, not the signature's. *)
Lemma forged_behind_stale_nonce :
  authEnabled (server true) = true
  /\ GetHeader staleForged "signed"
     <> KNSign (auth (server true)) (url.Encode (Request_Form staleForged))
  /\ reasons (snd (Authenticated (server true) now0 staleForged []))
     <> [Some (JString "Invalid signed token")].
Proof.
  split; [reflexivity|]. split; intros Heq; vm_compute in Heq; discriminate.
Qed.

Lemma Authenticated_verdict_witness :
  Authenticated (server true) now0 signedCancel ["order_id"]
  = ((Request_Form signedCancel, true), [])
  /\ Authenticated (server true) now0 tamperedCancel ["order_id"]
     = ((Request_Form tamperedCancel, false),
        [failure "Invalid signed token"]).
Proof.
  pose proof (Authenticated_verdict (server true) now0 signedCancel
                ["order_id"] eq_refl) as (_ & Hpass & _).
  pose proof (Authenticated_verdict (server true) now0 tamperedCancel
                ["order_id"] eq_refl) as (_ & _ & Hfail).
  split.
  - apply Hpass; [|reflexivity].
    split; [reflexivity|]. split; [reflexivity|].
    constructor; [discriminate | constructor].
  - apply Hfail; [|intros Heq; vm_compute in Heq; discriminate].
    split; [reflexivity|]. split; [reflexivity|].
    constructor; [discriminate | constructor].
Defined.

Lemma IsIntime_window_witness :
  IsIntime now0 "1699999985123" = false
  /\ IsIntime now0 "1699999995123" = true
  /\ Authenticated (server true) now0 staleForged []
     = ((Request_Form staleForged, false), [failure "Your nonce is invalid"]).
Proof.
  assert (Hnow : - two63 <= now0 < two63) by (vm_compute; split; congruence).
  pose proof (IsIntime_window now0 "1699999985123" (server true)
                staleForged [] Hnow) as (_ & Hreason & Hstale & Hfresh).
  split; [exact Hstale|]. split; [exact Hfresh|].
  apply Hreason; reflexivity.
Defined.

Lemma Authenticated_disabled_witness :
  Authenticated (server false) now0 bare ["order_id"]
  = ((Request_Form bare, true), []).
Proof.
  apply (Authenticated_disabled (server false) now0 bare ["order_id"]).
  reflexivity.
Defined.

(** C8, as stated, fails: without a timestamp parameter [AllPrices]
    asks for [MAX_TIMESPOT], not for the current time. *)
Lemma absent_timestamp_is_not_now :
  URL_Query bare !! "timestamp" = None
  /\ fst (AllPrices (server true) now0 bare)
     <> [CallGetAllPrices (GetTimepoint now0)].
Proof.
  split; [reflexivity|]. intros Heq. vm_compute in Heq. discriminate.
Qed.

Lemma snapshot_timepoint_witness :
  fst (AllPrices (server true) now0 bare) = [CallGetAllPrices MAX_TIMESPOT]
  /\ fst (AllPrices (server true) now0 atNoon) = [CallGetAllPrices MAX_TIMESPOT]
  /\ fst (AllPrices (server true) now0 at1234) = [CallGetAllPrices 1234].
Proof.
  pose proof (snapshot_timepoint pairOf (server true) now0 now0 bare)
    as (Hcall & _ & _ & _ & Habsent & _).
  pose proof (snapshot_timepoint pairOf (server true) now0 now0 atNoon)
    as (Hcall' & _ & _ & _ & _ & Hbad & _).
  pose proof (snapshot_timepoint pairOf (server true) now0 now0 at1234)
    as (Hcall'' & _ & _ & _ & _ & _ & Hgood).
  rewrite Hcall, Hcall', Hcall''.
  destruct (Habsent eq_refl) as [-> _].
  rewrite (Hbad "noon" [] 0 ErrSyntax eq_refl eq_refl).
  rewrite (Hgood "1234" [] 1234 eq_refl eq_refl).
  repeat split.
Defined.

End control_plane.

(** ** The scenarios of the specification, run *)

Module scenarios.
Import common core http doubles.

(** Activity ID round trip. *)
Example barredID_text :
  MarshalText barredID = ("1700000000000|0xabc|tail", None)
  /\ StringToActivityID "1700000000000|0xabc|tail" = (barredID, None).
Proof. split; reflexivity. Qed.

(** Deposit dedup: the first deposit is sent, the second is refused
    without a second [Send], and both are journalled. *)
Example deposit_twice :
  let first := Deposit doubles.FormatAmount now0 binance ETH (10 ^ 18)
                 1700000000123 idle in
  let second := Deposit doubles.FormatAmount (now0 + 1000000) binance ETH
                  (10 ^ 18) 1700000000124 (snd first) in
  snd (fst first) = None
  /\ snd (fst second)
     = Some (ErrorString
               "There is a pending ETH deposit to binance currently, please try again")
  /\ chainCalls (snd second)
     = [CallSend ETH (10 ^ 18) "0x44d34a119ba21a42167ff8b77a88f0fc7bb2db90"]
  /\ map summary (storage (snd second))
     = [("deposit", "binance", "", "submitted");
        ("deposit", "binance", "", "failed")].
Proof. vm_compute. repeat split. Qed.

(** Set-rates length check, and the record of an accepted and of a
    refused transaction. *)
Example setrates_mismatch :
  let out := SetRates now0 now0 [KNC; OMG] [1] [1; 2] 1 idle in
  snd (fst out)
  = Some (ErrorString "Tokens, buys and sells must have the same length")
  /\ chainCalls (snd out) = [].
Proof. vm_compute. split; reflexivity. Qed.

Example setrates_submitted :
  map summary (storage (snd (SetRates now0 now0 [KNC] [10000] [9000] 100 idle)))
  = [("set_rates", "blockchain", "", "submitted")].
Proof. reflexivity. Qed.

Example setrates_failed :
  map summary
    (storage (snd (SetRates now0 now0 [KNC] [10000] [9000] 100
                     (mkWorld ([] : list ActivityRecord) Down []))))
  = [("set_rates", "blockchain", "", "failed")].
Proof. reflexivity. Qed.

(** The canonical message of a form: escaped pairs, keys sorted. *)
Example encode_sorted :
  url.Encode {[ "nonce" := ["17"]; "amount" := ["0x1"; "a b&c"];
                "Token" := ["ETH"] ]}
  = "Token=ETH&amount=0x1&amount=a+b%26c&nonce=17".
Proof. reflexivity. Qed.

(** The edges of the nonce window. *)
Example nonce_edges :
  IsIntime now0 "1699999990123" = true
  /\ IsIntime now0 "1699999990122" = false
  /\ IsIntime now0 "1700000010123" = true
  /\ IsIntime now0 "1700000010124" = false
  /\ IsIntime now0 "soon" = false.
Proof. repeat split. Qed.

End scenarios.

(** ** Clock conversions, timestamps and pair IDs *)

Module common_facts.
Import strconv decimal numerals common.

(** Milliseconds to a time and back: the value survives exactly when
    its product with a million fits an [int64], read as a signed
    number; in between the multiplication wraps around. *)
Theorem TimeToTimepoint_TimepointToTime (t : Z) :
  0 <= t <= maxUint64 ->
  (TimeToTimepoint (TimepointToTime t) = t
   <-> t <= 9223372036854 \/ 18446734850337514762 <= t).
Proof.
  unfold TimeToTimepoint, TimepointToTime, to_uint64, to_int64, two63,
    two64, maxUint64.
  intros Ht.
  Z.quot_rem_to_equations. Z.div_mod_to_equations. lia.
Qed.

Lemma TimeToTimepoint_TimepointToTime_witness :
  TimeToTimepoint (TimepointToTime 1700000000123) = 1700000000123
  /\ TimeToTimepoint (TimepointToTime 9223372036855) <> 9223372036855.
Proof.
  pose proof (TimeToTimepoint_TimepointToTime 1700000000123
                ltac:(unfold maxUint64; lia)) as Hin.
  pose proof (TimeToTimepoint_TimepointToTime 9223372036855
                ltac:(unfold maxUint64; lia)) as Hout.
  split; [apply Hin; left; lia|].
  intros Heq. apply Hout in Heq. lia.
Defined.

(** A time to milliseconds and back loses what is below the
    millisecond and nothing else. *)
Theorem TimepointToTime_TimeToTimepoint (t : Z) :
  - two63 <= t < two63 ->
  TimepointToTime (TimeToTimepoint t) = t - Z.rem t 1000000.
Proof.
  unfold TimeToTimepoint, TimepointToTime, to_uint64, to_int64, two63, two64.
  intros Ht.
  Z.quot_rem_to_equations. Z.div_mod_to_equations. lia.
Qed.

Lemma TimepointToTime_TimeToTimepoint_witness :
  TimepointToTime (TimeToTimepoint 1700000000123456789)
  = 1700000000123000000.
Proof.
  rewrite TimepointToTime_TimeToTimepoint by (unfold two63; lia).
  reflexivity.
Defined.

(** A timestamp taken at or after the epoch reads back as the
    timepoint of the same instant; one taken a millisecond or more
    before the epoch is printed with a sign, and [ToUint64] panics on
    it. *)
Theorem Timestamp_of_clock (now : Z) :
  - two63 <= now < two63 ->
  (- 1000000 < now ->
   Timestamp_ToUint64 (GetTimestamp now) = Some (GetTimepoint now))
  /\ (now <= - 1000000 -> Timestamp_ToUint64 (GetTimestamp now) = None).
Proof.
  intros Hnow. unfold GetTimestamp, GetTimepoint, Timestamp_ToUint64.
  assert (Hms : - 9223372036855 <= Z.quot now 1000000 <= 9223372036855).
  { unfold two63 in Hnow. Z.quot_rem_to_equations. lia. }
  rewrite to_int64_small by (unfold two63; lia).
  split.
  - intros Hpos.
    assert (H0 : 0 <= Z.quot now 1000000).
    { Z.quot_rem_to_equations. lia. }
    unfold FormatInt. destruct (Z.quot now 1000000 <? 0) eqn:E;
      [apply Z.ltb_lt in E; lia|].
    rewrite ParseUint_FormatUint by (unfold maxUint64; lia).
    rewrite to_uint64_small by (unfold maxUint64; lia). reflexivity.
  - intros Hneg.
    assert (H0 : Z.quot now 1000000 < 0).
    { Z.quot_rem_to_equations. lia. }
    unfold FormatInt. apply Z.ltb_lt in H0. rewrite H0. reflexivity.
Qed.

Lemma Timestamp_of_clock_witness :
  Timestamp_ToUint64 (GetTimestamp 1700000000123456789)
  = Some 1700000000123
  /\ Timestamp_ToUint64 (GetTimestamp (- 5000000)) = None.
Proof.
  pose proof (Timestamp_of_clock 1700000000123456789
                ltac:(unfold two63; lia)) as [Hafter _].
  pose proof (Timestamp_of_clock (- 5000000)
                ltac:(unfold two63; lia)) as [_ Hbefore].
  split; [apply Hafter; lia | apply Hbefore; lia].
Defined.

(** A pair ID names its pair: when the base tokens have no dash in
    their IDs, two pairs with one ID are the same pair. *)
Theorem NewTokenPairID_inj (base quote base' quote' : string) :
  contains base "-"%char = false -> contains base' "-"%char = false ->
  NewTokenPairID base quote = NewTokenPairID base' quote' ->
  base = base' /\ quote = quote'.
Proof.
  unfold NewTokenPairID. intros Hb Hb' Heq.
  change (?a ++ "-" ++ ?b) with (a ++ String "-"%char b) in Heq.
  pose proof (f_equal (fun x => strings.Split x "-"%char) Heq) as Hsplit.
  simpl in Hsplit.
  rewrite !activity_id.Split_at_first in Hsplit by assumption.
  injection Hsplit as Hbase _. subst base'.
  split; [reflexivity|].
  apply String.app_inj in Heq. injection Heq as ->. reflexivity.
Qed.

Lemma NewTokenPairID_inj_witness :
  NewTokenPairID "KNC" "ETH" = NewTokenPairID "KNC" "ETH"
  /\ NewTokenPairID "A-B" "C" = NewTokenPairID "A" "B-C".
Proof.
  pose proof (NewTokenPairID_inj "KNC" "ETH" "KNC" "ETH" eq_refl eq_refl
                eq_refl) as [_ _].
  split; reflexivity.
Defined.

Section AnyLimits.
Variable L : Type.
Variable zero : L.

(** [Get] returns what the last [Update] of the pair stored, leaves
    the other pairs as they were, and answers a pair never stored with
    the zero value and an error. *)
Theorem ExchangeInfo_Get_Update (info : ExchangeInfo L) (pair other : string)
    (d : L) :
  ExchangeInfo_Get zero (ExchangeInfo_Update info pair d) pair = (d, None)
  /\ (other <> pair ->
      ExchangeInfo_Get zero (ExchangeInfo_Update info pair d) other
      = ExchangeInfo_Get zero info other)
  /\ ExchangeInfo_Get zero NewExchangeInfo pair
     = (zero, Some (ErrorString "Token pair is not existed"))
  /\ ExchangeInfo_GetData (ExchangeInfo_Update info pair d) !! pair = Some d.
Proof.
  unfold ExchangeInfo_Get, ExchangeInfo_Update, ExchangeInfo_GetData,
    NewExchangeInfo. simpl.
  rewrite lookup_insert_eq, lookup_empty.
  repeat split. intros Hne. rewrite lookup_insert_ne by congruence.
  reflexivity.
Qed.

End AnyLimits.

Lemma ExchangeInfo_Get_Update_witness :
  ExchangeInfo_Get 0
    (ExchangeInfo_Update (ExchangeInfo_Update NewExchangeInfo "KNC-ETH" 8)
       "OMG-ETH" 6) "KNC-ETH"
  = (8, None).
Proof.
  pose proof (ExchangeInfo_Get_Update Z 0
                (ExchangeInfo_Update NewExchangeInfo "KNC-ETH" 8)
                "OMG-ETH" "KNC-ETH" 6) as (_ & Hother & _).
  rewrite Hother by discriminate.
  apply (ExchangeInfo_Get_Update Z 0 NewExchangeInfo "KNC-ETH" "KNC-ETH" 8).
Defined.

End common_facts.

(** ** The life of an activity: what pending means for a record *)

Module lifecycle.
Import common core doubles.

(** A pending record is seen by one of the two fetcher predicates at
    least: pending implies exchange-pending or blockchain-pending,
    whatever the action. *)
Theorem IsPending_covered (r : ActivityRecord) :
  IsPending r = true ->
  IsExchangePending r = true \/ IsBlockchainPending r = true.
Proof.
  destruct r as [a i d p res E M t].
  unfold IsPending, IsExchangePending, IsBlockchainPending, streq, strne.
  simpl.
  destruct (String.eqb_spec a "withdraw") as [->|Hw]; simpl.
  - records.str_cases; intros; auto.
  - destruct (String.eqb_spec a "deposit") as [->|Hd]; simpl.
    + records.str_cases; intros; auto.
    + destruct (String.eqb_spec a "trade") as [->|Ht]; simpl.
      * records.str_cases; intros; auto.
      * destruct (String.eqb_spec a "set_rates") as [->|Hs]; simpl;
          [records.str_cases; intros; auto | auto].
Qed.

Lemma IsPending_covered_witness :
  IsExchangePending pendingETH = true \/ IsBlockchainPending pendingETH = true.
Proof. apply (IsPending_covered pendingETH). reflexivity. Defined.

(** Failure ends an activity: a record of one of the four actions whose
    exchange status is "failed" is not pending, and neither is a
    withdraw, a deposit or a set_rates record whose mining status is
    "failed". *)
Theorem failed_is_terminal (r : ActivityRecord) :
  (ExchangeStatus r = "failed" ->
   Action r = "trade" \/ Action r = "deposit" \/ Action r = "withdraw"
   \/ Action r = "set_rates" ->
   IsPending r = false)
  /\ (MiningStatus r = "failed" ->
      Action r = "deposit" \/ Action r = "withdraw" \/ Action r = "set_rates" ->
      IsPending r = false).
Proof.
  destruct r as [a i d p res E M t]. simpl.
  unfold IsPending, streq, strne. simpl. split.
  - intros -> [-> | [-> | [-> | ->]]]; simpl; records.str_cases;
      rewrite ?andb_false_r; reflexivity.
  - intros -> [-> | [-> | ->]]; simpl; records.str_cases;
      rewrite ?andb_false_r; reflexivity.
Qed.

Lemma failed_is_terminal_witness :
  IsPending (mkActivityRecord "withdraw" barredID "binance" ∅ ∅
               "failed" "" "1700000000000") = false
  /\ IsPending (mkActivityRecord "set_rates" barredID "blockchain" ∅ ∅
                  "" "failed" "1700000000000") = false.
Proof.
  pose proof (failed_is_terminal
                (mkActivityRecord "withdraw" barredID "binance" ∅ ∅
                   "failed" "" "1700000000000")) as [Hexchange _].
  pose proof (failed_is_terminal
                (mkActivityRecord "set_rates" barredID "blockchain" ∅ ∅
                   "" "failed" "1700000000000")) as [_ Hmining].
  split; [apply Hexchange | apply Hmining]; try reflexivity; tauto.
Defined.

End lifecycle.

(** ** Reserve core: what each command calls and what it records *)

Module outcomes.
Import strconv decimal numerals common core doubles.

(** The statuses the core writes make a record of a deposit, a
    withdrawal or a rate update pending exactly when the command had no
    error. *)
Lemma fresh_record_pending (err : error) (id : ActivityID)
    (destination : string) (params result : gmap string Value)
    (timestamp : string) :
  IsPending (mkActivityRecord "deposit" id destination params result
               "" (status_of err) timestamp) = is_nil err
  /\ IsPending (mkActivityRecord "withdraw" id destination params result
                  (status_of err) "" timestamp) = is_nil err
  /\ IsPending (mkActivityRecord "set_rates" id destination params result
                  "" (status_of err) timestamp) = is_nil err.
Proof. destruct err; repeat split. Qed.

(** The new journal is the one [Record_] returned. *)
Ltac written Hrec :=
  match goal with
  | |- ?s' = fst _ =>
      match type of Hrec with
      | _ = (s', ?e) =>
          change s' with (fst (s', e)); rewrite <- Hrec; reflexivity
      end
  end.

Section AnyCollaborators.
Context {S B : Type} `{ActivityStorage S} `{Blockchain.Interface B}.
Variable FormatAmount : Z -> Z -> string.


(** On every path [Deposit] writes one record to the journal, and that
    record is pending exactly when [Deposit] returns no error. *)
Theorem Deposit_record (now : Z) (exchange : Exchange)
    (token : Token) (amount timepoint : Z) (w : World S B) :
  let out := Deposit FormatAmount now exchange token amount timepoint w in
  let uid := fst (fst out) in
  let err := snd (fst out) in
  let params : gmap string Value :=
    {[ "exchange" := VExchange exchange;
       "token" := VToken token;
       "amount" := VString (FormatAmount amount (Decimal token));
       "timepoint" := VUint64 timepoint ]} in
  exists tx : Hash,
    let result : gmap string Value :=
      {[ "tx" := VString (Hex tx); "error" := VError err ]} in
    uid = timebasedID now
            (Hex tx ++ "|" ++ ID token ++ "|"
             ++ FormatAmount amount (Decimal token))
    /\ storage (snd out)
       = fst (Record_ "deposit" uid (Exchange_ID exchange) params result
                "" (status_of err) timepoint (storage w))
    /\ forall timestamp,
         IsPending (mkActivityRecord "deposit" uid (Exchange_ID exchange)
                      params result "" (status_of err) timestamp)
         = is_nil err.
Proof.
  unfold Deposit.
  destruct (Exchange_Address exchange token) as [address supported].
  destruct supported; simpl negb; cbv iota.
  - unfold bind, storage_HasPendingDeposit, blockchain_Send, storage_Record,
      ret.
    destruct (HasPendingDeposit token exchange (storage w)).
    + exists zeroHash. unfold status_of. simpl.
      destruct (Record_ _ _ _ _ _ _ _ _ _) as [s' e] eqn:Hrec. simpl.
      repeat split. written Hrec.
    + destruct (Blockchain.Send token amount address (chain w))
        as [[tx cerr] b'].
      exists tx. simpl.
      destruct (Record_ _ _ _ _ _ _ _ _ _) as [s' e] eqn:Hrec. simpl.
      repeat split; [written Hrec|]. intros timestamp.
      apply (fresh_record_pending cerr).
  - exists zeroHash. unfold bind, storage_Record, ret, status_of. simpl.
    destruct (Record_ _ _ _ _ _ _ _ _ _) as [s' e] eqn:Hrec. simpl.
      repeat split. written Hrec.
Qed.

(** On every path [SetRates] writes one record to the journal, and
    that record is pending exactly when [SetRates] returns no error. *)
Theorem SetRates_record (now now' : Z) (tokens : list Token)
    (buys sells : list Z) (block : Z) (w : World S B) :
  let out := SetRates now now' tokens buys sells block w in
  let uid := fst (fst out) in
  let err := snd (fst out) in
  let params : gmap string Value :=
    {[ "tokens" := VTokens tokens;
       "buys" := VBigInts buys;
       "sells" := VBigInts sells;
       "block" := VBigInt block ]} in
  exists tx : Hash,
    let result : gmap string Value :=
      {[ "tx" := VString (Hex tx); "error" := VError err ]} in
    uid = timebasedID now (Hex tx)
    /\ storage (snd out)
       = fst (Record_ "set_rates" uid "blockchain" params result
                "" (status_of err) (GetTimepoint now') (storage w))
    /\ forall timestamp,
         IsPending (mkActivityRecord "set_rates" uid "blockchain"
                      params result "" (status_of err) timestamp)
         = is_nil err.
Proof.
  unfold SetRates.
  destruct (negb (Nat.eqb (length tokens) (length buys))
            || negb (Nat.eqb (length tokens) (length sells))).
  - exists zeroHash. unfold bind, storage_Record, ret, status_of. simpl.
    destruct (Record_ _ _ _ _ _ _ _ _ _) as [s' e] eqn:Hrec. simpl.
      repeat split. written Hrec.
  - unfold bind, blockchain_SetRates, storage_Record, ret.
    destruct (Blockchain.SetRates _ buys sells block (chain w))
      as [[tx cerr] b'].
    exists tx. simpl.
    destruct (Record_ _ _ _ _ _ _ _ _ _) as [s' e] eqn:Hrec. simpl.
    repeat split; [written Hrec|]. intros timestamp.
    apply (fresh_record_pending cerr).
Qed.

End AnyCollaborators.


Section AnyExchange.
Context {S B X : Type} `{ActivityStorage S} `{ExchangeClient X}.
Variable FormatAmount : Z -> Z -> string.
Variable rm : string.

(** [Withdraw] asks the exchange exactly when it has an address for
    the token: then [exchange.Withdraw] is called once, with the
    reserve's address as destination, and its error is the one
    returned; for an unsupported token the exchange is not called.
    [Withdraw] never touches the chain client. *)
Theorem Withdraw_calls (now : Z) (exchange : Exchange)
    (token : Token) (amount timepoint : Z) (f : Floor S B X) :
  let supported := snd (Exchange_Address exchange token) in
  let asked :=
    Exchange_Withdraw exchange token amount rm timepoint (venues f) in
  let out := Withdraw FormatAmount rm now exchange token amount timepoint f in
  let uid := fst (fst out) in
  let err := snd (fst out) in
  let f' := snd out in
  (supported = true ->
   exchangeCalls f'
   = (exchangeCalls f
      ++ [CallWithdraw (Exchange_ID exchange) token amount rm timepoint])%list
   /\ venues f' = snd asked
   /\ err = snd (fst asked)
   /\ uid = timebasedID now (fst (fst asked)))
  /\ (supported = false ->
      err = Some (ErrorString ("Exchange " ++ Exchange_ID exchange
                    ++ " doesn't support token " ++ ID token))
      /\ uid = timebasedID now ""
      /\ exchangeCalls f' = exchangeCalls f /\ venues f' = venues f)
  /\ chain (world f') = chain (world f)
  /\ chainCalls (world f') = chainCalls (world f).
Proof.
  unfold Withdraw.
  destruct (Exchange_Address exchange token) as [address supported]. simpl.
  destruct supported; simpl negb; cbv iota.
  - unfold bind, exchange_Withdraw, on_world, storage_Record, ret.
    destruct (Exchange_Withdraw exchange token amount rm timepoint (venues f))
      as [[id werr] x']. simpl.
    destruct (Record_ _ _ _ _ _ _ _ _ _) as [s' e]. simpl.
    split; [|split; [discriminate|]]; repeat split.
  - unfold bind, on_world, storage_Record, ret. simpl.
    destruct (Record_ _ _ _ _ _ _ _ _ _) as [s' e]. simpl.
    split; [discriminate|]. repeat split.
Qed.

(** On every path [Withdraw] writes one record to the journal, with an
    empty mining status and an empty transaction, and that record is
    pending exactly when [Withdraw] returns no error. *)
Theorem Withdraw_record (now : Z) (exchange : Exchange)
    (token : Token) (amount timepoint : Z) (f : Floor S B X) :
  let out := Withdraw FormatAmount rm now exchange token amount timepoint f in
  let uid := fst (fst out) in
  let err := snd (fst out) in
  let params : gmap string Value :=
    {[ "exchange" := VExchange exchange;
       "token" := VToken token;
       "amount" := VString (FormatAmount amount (Decimal token));
       "timepoint" := VUint64 timepoint ]} in
  let result : gmap string Value :=
    {[ "error" := VError err;
       "id" := VString (EID uid);
       "tx" := VString "" ]} in
  storage (world (snd out))
  = fst (Record_ "withdraw" uid (Exchange_ID exchange) params result
           (status_of err) "" timepoint (storage (world f)))
  /\ forall timestamp,
       IsPending (mkActivityRecord "withdraw" uid (Exchange_ID exchange)
                    params result (status_of err) "" timestamp)
       = is_nil err.
Proof.
  unfold Withdraw.
  destruct (Exchange_Address exchange token) as [address supported].
  destruct supported; simpl negb; cbv iota.
  - unfold bind, exchange_Withdraw, on_world, storage_Record, ret.
    destruct (Exchange_Withdraw exchange token amount rm timepoint (venues f))
      as [[id werr] x']. simpl.
    destruct (Record_ _ _ _ _ _ _ _ _ _) as [s' e] eqn:Hrec. simpl.
    split; [written Hrec|]. intros timestamp.
    apply (fresh_record_pending werr).
  - unfold bind, on_world, storage_Record, ret, status_of. simpl.
    destruct (Record_ _ _ _ _ _ _ _ _ _) as [s' e] eqn:Hrec. simpl.
    split; [written Hrec|]. reflexivity.
Qed.

End AnyExchange.

Lemma Withdraw_calls_witness :
  exchangeCalls (snd (Withdraw doubles.FormatAmount reserve now0 binance ETH
                        (10 ^ 18) 1700000000123 quiet))
  = [CallWithdraw "binance" ETH (10 ^ 18) reserve 1700000000123]
  /\ exchangeCalls (snd (Withdraw doubles.FormatAmount reserve now0 binance
                           KNC (10 ^ 18) 1700000000123 quiet)) = [].
Proof.
  pose proof (Withdraw_calls doubles.FormatAmount reserve now0 binance ETH
                (10 ^ 18) 1700000000123 quiet) as [Hasked _].
  pose proof (Withdraw_calls doubles.FormatAmount reserve now0 binance KNC
                (10 ^ 18) 1700000000123 quiet) as (_ & Hnot & _).
  destruct (Hasked eq_refl) as (Hcalls & _).
  destruct (Hnot eq_refl) as (_ & _ & Hnone & _).
  split; [exact Hcalls | exact Hnone].
Defined.

(** Every ID the core issues reads back from its text: the text of
    [timebasedID], whatever the clock and the external id, parses to
    the same ID, so the id a command returned can be handed to
    [StringToActivityID] as it is. *)
Theorem issued_id_parses (now : Z) (id : string) :
  StringToActivityID (ActivityID_String (timebasedID now id))
  = (timebasedID now id, None).
Proof.
  unfold ActivityID_String, MarshalText, timebasedID. simpl.
  assert (Hfit : 0 <= to_uint64 now <= maxUint64).
  { unfold to_uint64, two64, maxUint64.
    pose proof (Z.mod_pos_bound now 18446744073709551616 ltac:(lia)). lia. }
  destruct (FormatUint_value _ Hfit) as [Hd Hv].
  pose proof (canonical_numeral _ (FormatUint_canonical _ Hfit)) as Hnum.
  rewrite activity_id.StringToActivityID_numeral; rewrite ?Hv;
    try assumption; [reflexivity | lia].
Qed.

End outcomes.

(** ** The in-memory metric store *)

Module metrics.
Import common metric.

Section AnyFloat.
Variable float64 : Type.

Abbreviation Entry := (MetricEntry float64).
Abbreviation Store := (RamMetricStorage float64).

(** [StoreMetric] always succeeds and never leaves more than
    [MAX_CAPACITY] entries: the new entry is the last one, the entries
    kept are the end of the old ones followed by the new one, and what
    is dropped is the oldest. *)
Theorem StoreMetric_capacity (self : Store) (e : Entry) (timepoint : Z) :
  let self' := fst (StoreMetric self e timepoint) in
  snd (StoreMetric self e timepoint) = None
  /\ length (entries self')
     = Nat.min (Datatypes.S (length (entries self))) 1000
  /\ last (entries self') = Some e
  /\ exists evicted,
       (entries self ++ [e] = evicted ++ entries self')%list
       /\ length evicted = (Datatypes.S (length (entries self)) - 1000)%nat.
Proof.
  unfold StoreMetric, MAX_CAPACITY. simpl.
  set (appended := (entries self ++ [e])%list).
  assert (Hlen : length appended = Datatypes.S (length (entries self))).
  { unfold appended. rewrite length_app. simpl. lia. }
  split; [reflexivity|].
  destruct (0 <? Z.of_nat (length appended) - 1000) eqn:Eover.
  - apply Z.ltb_lt in Eover.
    set (n := Z.to_nat (Z.of_nat (length appended) - 1000)).
    assert (Hn : n = (Datatypes.S (length (entries self)) - 1000)%nat)
      by (unfold n; lia).
    split; [rewrite length_drop; lia|]. split.
    + assert (Hlast : last appended = Some e).
      { unfold appended. apply last_snoc. }
      rewrite <- (take_drop n appended) in Hlast.
      rewrite last_app in Hlast.
      destruct (last (drop n appended)) as [x|] eqn:Hd; [exact Hlast|].
      apply last_None in Hd.
      apply (f_equal (@length _)) in Hd. rewrite length_drop in Hd.
      simpl in Hd. lia.
    + exists (take n appended). split.
      * symmetry. apply take_drop.
      * rewrite length_take. lia.
  - apply Z.ltb_ge in Eover.
    split; [lia|]. split.
    + unfold appended. apply last_snoc.
    + exists []. split; [reflexivity|]. simpl. lia.
Qed.

Lemma fold_step_lookup (t : Z) (tok : string)
    (kms : list (string * TokenMetric float64)) :
  NoDup kms.*1 ->
  forall acc : gmap string (MetricList float64),
    fold_left (step t) kms acc !! tok
    = (fun l =>
         (l ++ found t ((list_to_map kms : gmap string (TokenMetric float64))
                        !! tok))%list)
        <$> acc !! tok.
Proof.
  induction kms as [|[k m] kms IH]; intros Hnd acc.
  - simpl. rewrite lookup_empty. simpl.
    destruct (acc !! tok); simpl; [rewrite app_nil_r|]; reflexivity.
  - simpl in Hnd. apply NoDup_cons in Hnd as [Hk Hnd].
    simpl fold_left. rewrite (IH Hnd). clear IH.
    apply (not_elem_of_list_to_map_1 (M := gmap string)) in Hk.
    change (list_to_map ((k, m) :: kms))
      with (<[k := m]> (list_to_map kms : gmap string (TokenMetric float64))).
    unfold step at 1. simpl fst. simpl snd.
    destruct (decide (tok = k)) as [->|Hne].
    + rewrite lookup_insert_eq, Hk. simpl.
      destruct (acc !! k) as [l|] eqn:Hacc.
      * rewrite lookup_insert_eq. simpl. rewrite app_nil_r. reflexivity.
      * rewrite Hacc. reflexivity.
    + rewrite (lookup_insert_ne (list_to_map kms)) by congruence.
      destruct (acc !! k) as [l|]; [|reflexivity].
      rewrite lookup_insert_ne by congruence. reflexivity.
Qed.

(** The inner loop appends to the list of each token asked for the
    metric the entry has for it, and changes nothing else. *)
Lemma collect_lookup (e : Entry) (tok : string)
    (acc : gmap string (MetricList float64)) :
  collect e acc !! tok
  = (fun l => (l ++ metricsOf tok [e])%list) <$> acc !! tok.
Proof.
  change (collect e acc)
    with (fold_left (step (Timestamp e)) (map_to_list (Data e)) acc).
  rewrite fold_step_lookup by apply NoDup_fst_map_to_list.
  rewrite list_to_map_to_list. unfold metricsOf, found. simpl.
  destruct (Data e !! tok); simpl; rewrite ?app_nil_r; reflexivity.
Qed.

Lemma metricsOf_cons (tok : string) (e : Entry) (es : list Entry) :
  metricsOf tok (e :: es) = (metricsOf tok [e] ++ metricsOf tok es)%list.
Proof. unfold metricsOf. simpl. rewrite app_nil_r. reflexivity. Qed.

(** The outer loop appends, token by token, the metrics of the entries
    it reaches. *)
Lemma scan_lookup (fromTime toTime : Z) (tok : string) (es : list Entry) :
  forall acc : gmap string (MetricList float64),
    scan fromTime toTime es acc !! tok
    = (fun l => (l ++ metricsOf tok (reached fromTime toTime es))%list)
        <$> acc !! tok.
Proof.
  induction es as [|e es IH]; intros acc; simpl.
  - destruct (acc !! tok); simpl; rewrite ?app_nil_r; reflexivity.
  - unfold inRange.
    destruct ((fromTime <=? Timestamp e) && (Timestamp e <=? toTime)).
    + rewrite (metricsOf_cons tok e (reached fromTime toTime es)).
      rewrite IH, collect_lookup.
      destruct (acc !! tok) as [l|]; [|reflexivity].
      cbv [fmap option_fmap option_map]. rewrite <- app_assoc. reflexivity.
    + destruct (Timestamp e <=? fromTime).
      * destruct (acc !! tok); simpl; rewrite ?app_nil_r; reflexivity.
      * apply IH.
Qed.

(** The lists [GetMetric] starts from: an empty one for each token
    asked for. *)
Lemma requested_lookup (tokens : list Token) (tok : string) :
  forall acc : gmap string (MetricList float64),
    fold_left (fun acc t => <[ ID t := [] ]> acc) tokens acc !! tok
    = if decide (tok ∈ map ID tokens) then Some [] else acc !! tok.
Proof.
  induction tokens as [|t ts IH]; intros acc; simpl.
  - destruct (decide (tok ∈ [])) as [Hin|_]; [inversion Hin | reflexivity].
  - rewrite IH.
    destruct (decide (tok ∈ map ID ts)) as [Hin|Hout].
    + rewrite decide_True by (right; exact Hin). reflexivity.
    + destruct (decide (tok = ID t)) as [->|Hne].
      * rewrite decide_True by left. apply lookup_insert_eq.
      * rewrite decide_False.
        -- apply lookup_insert_ne. congruence.
        -- intros Hin. apply elem_of_cons in Hin as [?|?]; contradiction.
Qed.

(** What [GetMetric] answers: for each token asked for, the metrics it
    has in the entries reached, newest first; nothing for any other
    token. *)
Lemma GetMetric_lookup (self : Store) (tokens : list Token)
    (fromTime toTime : Z) (tok : string) :
  fst (GetMetric self tokens fromTime toTime) !! tok
  = if decide (tok ∈ map ID tokens)
    then Some (metricsOf tok (reached fromTime toTime (rev (entries self))))
    else None.
Proof.
  unfold GetMetric. simpl. rewrite scan_lookup, requested_lookup.
  rewrite lookup_empty. destruct (decide (tok ∈ map ID tokens)); reflexivity.
Qed.

Lemma reached_inRange (fromTime toTime : Z) (es : list Entry) :
  Forall (fun e => inRange fromTime toTime e = true)
    (reached fromTime toTime es).
Proof.
  induction es as [|e es IH]; simpl; [constructor|].
  destruct (inRange fromTime toTime e) eqn:Hin.
  - constructor; assumption.
  - destruct (Timestamp e <=? fromTime); [constructor | exact IH].
Qed.

Lemma metricsOf_Forall (P : Z -> Prop) (tok : string) (es : list Entry) :
  Forall (fun e => P (Timestamp e)) es ->
  Forall (fun r => P (resp_Timestamp r)) (metricsOf tok es).
Proof.
  induction 1 as [|e es He Hes IH]; [constructor|].
  rewrite metricsOf_cons. apply Forall_app. split; [|exact IH].
  unfold metricsOf. simpl. destruct (Data e !! tok); simpl;
    repeat constructor. exact He.
Qed.

(** [GetMetric] never fails; it answers with a list for each token
    asked for and for no other, and every metric in the answer lies
    between [fromTime] and [toTime], both included. *)
Theorem GetMetric_answer (self : Store) (tokens : list Token)
    (fromTime toTime : Z) :
  let result := fst (GetMetric self tokens fromTime toTime) in
  snd (GetMetric self tokens fromTime toTime) = None
  /\ (forall tok, is_Some (result !! tok) <-> tok ∈ map ID tokens)
  /\ (forall tok l, result !! tok = Some l ->
      Forall (fun r => fromTime <= resp_Timestamp r <= toTime) l).
Proof.
  split; [reflexivity|]. split.
  - intros tok. rewrite GetMetric_lookup.
    destruct (decide (tok ∈ map ID tokens)) as [Hin|Hout].
    + split; [intros _; exact Hin | intros _; eexists; reflexivity].
    + split; [intros [x Hx]; discriminate | contradiction].
  - intros tok l. rewrite GetMetric_lookup.
    destruct (decide (tok ∈ map ID tokens)); [|discriminate].
    intros Heq. injection Heq as <-.
    apply (metricsOf_Forall (fun t => fromTime <= t <= toTime)).
    eapply Forall_impl; [apply reached_inRange|].
    intros x Hx. unfold inRange in Hx. simpl in Hx. lia.
Qed.

Lemma rev_descending (es : list Entry) :
  StronglySorted (fun a b : Entry => Timestamp a <= Timestamp b) es ->
  StronglySorted (fun a b : Entry => Timestamp b <= Timestamp a) (rev es).
Proof.
  induction 1 as [|x es Hes IH Hx]; simpl; [constructor|].
  apply StronglySorted_app. split; [|split].
  - intros x1 x2 H1 H2. apply list_elem_of_singleton in H2. subst x2.
    apply list_elem_of_In, in_rev, list_elem_of_In in H1.
    rewrite Forall_forall in Hx. apply Hx, H1.
  - exact IH.
  - repeat constructor.
Qed.

(** On entries in descending order of time the loop stops only where
    nothing in range is left. *)
Lemma reached_descending (fromTime toTime : Z) (es : list Entry) :
  StronglySorted (fun a b : Entry => Timestamp b <= Timestamp a) es ->
  reached fromTime toTime es = List.filter (inRange fromTime toTime) es.
Proof.
  induction 1 as [|x es Hes IH Hx]; simpl; [reflexivity|].
  destruct (inRange fromTime toTime x) eqn:Hin.
  - rewrite IH. reflexivity.
  - destruct (Timestamp x <=? fromTime) eqn:Hold; [|exact IH].
    apply Z.leb_le in Hold. clear IH. symmetry.
    induction Hx as [|y es Hy Hys IHes]; simpl; [reflexivity|].
    apply StronglySorted_inv in Hes as [Hes _].
    rewrite (IHes Hes).
    unfold inRange in Hin |- *. simpl in *.
    destruct ((fromTime <=? Timestamp y) && (Timestamp y <=? toTime)) eqn:E;
      [|reflexivity].
    apply andb_false_iff in Hin. apply andb_true_iff in E. lia.
Qed.

(** When the entries were stored in the order of their timestamps,
    [GetMetric] misses nothing: a token asked for gets all its metrics
    between [fromTime] and [toTime], newest first. *)
Theorem GetMetric_complete (self : Store) (tokens : list Token)
    (fromTime toTime : Z) (tok : string) :
  StronglySorted (fun a b : Entry => Timestamp a <= Timestamp b)
    (entries self) ->
  tok ∈ map ID tokens ->
  fst (GetMetric self tokens fromTime toTime) !! tok
  = Some (metricsOf tok
            (List.filter (inRange fromTime toTime) (rev (entries self)))).
Proof.
  intros Hsorted Hin. rewrite GetMetric_lookup, decide_True by exact Hin.
  rewrite reached_descending by (apply rev_descending; exact Hsorted).
  reflexivity.
Qed.

Lemma StoreMetric_snoc (self : Store) (e : Entry) (timepoint : Z) :
  exists kept, entries (fst (StoreMetric self e timepoint)) = (kept ++ [e])%list.
Proof.
  unfold StoreMetric, MAX_CAPACITY. simpl.
  destruct (0 <? Z.of_nat (length (entries self ++ [e])) - 1000) eqn:Eover.
  - rewrite length_app in *. simpl in *.
    exists (drop (Z.to_nat (Z.of_nat (length (entries self) + 1) - 1000))
              (entries self)).
    apply drop_app_le. lia.
  - exists (entries self). reflexivity.
Qed.

(** A metric just stored is the first one answered: after [StoreMetric]
    of an entry in range, [GetMetric] puts the entry's metric at the
    head of the list of each of its tokens that is asked for. *)
Theorem GetMetric_after_StoreMetric (self : Store) (e : Entry)
    (timepoint : Z) (tokens : list Token) (fromTime toTime : Z)
    (tok : string) (m : TokenMetric float64) :
  fromTime <= Timestamp e <= toTime ->
  tok ∈ map ID tokens ->
  Data e !! tok = Some m ->
  exists older,
    fst (GetMetric (fst (StoreMetric self e timepoint)) tokens
           fromTime toTime) !! tok
    = Some (mkTokenMetricResponse (Timestamp e) (AfpMid m) (Spread m)
            :: older).
Proof.
  intros Hrange Hin Hm. rewrite GetMetric_lookup, decide_True by exact Hin.
  destruct (StoreMetric_snoc self e timepoint) as [kept ->].
  rewrite rev_app_distr. simpl.
  assert (Hr : inRange fromTime toTime e = true).
  { unfold inRange. apply andb_true_iff. lia. }
  rewrite Hr, metricsOf_cons. unfold metricsOf at 1. simpl. rewrite Hm.
  eexists. reflexivity.
Qed.

End AnyFloat.

(** Entries stored out of the order of their timestamps can hide one
    another: the entry at 10 stops the loop before it reaches the one at
    50. *)
Example GetMetric_shuffled :
  fst (GetMetric doubles.shuffled [doubles.KNC] 20 100) !! "KNC"
  = Some [mkTokenMetricResponse 60 "0.6" "0.01"].
Proof. reflexivity. Qed.

Lemma GetMetric_answer_witness :
  Forall (fun r : TokenMetricResponse string => 20 <= resp_Timestamp r <= 100)
    [mkTokenMetricResponse 60 "0.6" "0.01"].
Proof.
  pose proof (GetMetric_answer string doubles.shuffled [doubles.KNC] 20 100)
    as (_ & _ & Hrange).
  apply (Hrange "KNC"). reflexivity.
Defined.

Lemma GetMetric_complete_witness :
  fst (GetMetric
         (mkRamMetricStorage
            [doubles.metricAt 10 "KNC" "0.1" "0.01";
             doubles.metricAt 50 "KNC" "0.5" "0.01";
             doubles.metricAt 60 "KNC" "0.6" "0.01"])
         [doubles.KNC] 20 100) !! "KNC"
  = Some [mkTokenMetricResponse 60 "0.6" "0.01";
          mkTokenMetricResponse 50 "0.5" "0.01"].
Proof.
  rewrite (GetMetric_complete string).
  - reflexivity.
  - simpl. repeat constructor; simpl; lia.
  - simpl. left.
Defined.

Lemma GetMetric_after_StoreMetric_witness :
  exists older,
    fst (GetMetric
           (fst (StoreMetric doubles.shuffled
                   (doubles.metricAt 70 "KNC" "0.7" "0.01") 1700000000123))
           [doubles.KNC] 20 100) !! "KNC"
    = Some (mkTokenMetricResponse 70 "0.7" "0.01" :: older).
Proof.
  apply (GetMetric_after_StoreMetric string doubles.shuffled
           (doubles.metricAt 70 "KNC" "0.7" "0.01") 1700000000123
           [doubles.KNC] 20 100 "KNC"
           (mkTokenMetric "0.7" "0.01")).
  - simpl. lia.
  - simpl. left.
  - reflexivity.
Defined.

End metrics.

(** ** The control plane: responses, missing parameters, client nonces *)

Module handlers.
Import strconv decimal numerals common http doubles.

Section AnyServer.
Context {R A : Type} `{ReserveData R} `{Authentication A}.

(** Helper: a passing check writes nothing, a failing one writes one
    response. *)
Lemma Authenticated_written (self : HTTPServer R A) (now : Z)
    (c : Context) (required : list string) :
  length (snd (Authenticated self now c required))
  = if snd (fst (Authenticated self now c required)) then 0%nat else 1%nat.
Proof.
  unfold Authenticated.
  destruct (ParseForm_err c); [reflexivity|].
  destruct (authEnabled self); simpl; [|reflexivity].
  destruct (IsIntime now (url.Get (Request_Form c) "nonce")); simpl;
    [|reflexivity].
  destruct (missingParam (Request_Form c) required); [reflexivity|].
  destruct (String.eqb _ _); reflexivity.
Qed.


(** [Authenticated] answers a request it rejects with exactly one
    response, whose success flag is false, and writes nothing for a
    request it lets through; the form it returns is always the
    request's. *)
Theorem Authenticated_responds (self : HTTPServer R A) (now : Z)
    (c : Context) (required : list string) :
  let out := Authenticated self now c required in
  fst (fst out) = Request_Form c
  /\ (snd (fst out) = true -> snd out = [])
  /\ (snd (fst out) = false ->
      exists reason, snd out = [failure reason]
                     /\ snd (failure reason) !! "success" = Some (JBool false)).
Proof.
  unfold Authenticated.
  destruct (ParseForm_err c).
  { simpl. repeat split; [discriminate|]. intros _. eexists. split; reflexivity. }
  destruct (authEnabled self); simpl.
  2:{ repeat split. discriminate. }
  destruct (IsIntime now (url.Get (Request_Form c) "nonce")); simpl.
  2:{ repeat split; [discriminate|]. intros _. eexists. split; reflexivity. }
  destruct (missingParam (Request_Form c) required).
  { simpl. repeat split; [discriminate|]. intros _. eexists.
    split; reflexivity. }
  destruct (String.eqb _ _); simpl.
  - repeat split. discriminate.
  - repeat split; [discriminate|]. intros _. eexists. split; reflexivity.
Qed.

(** With authentication on, a request without a nonce, or with an
    empty one, is rejected with "Your nonce is invalid" whatever else
    it carries. *)
Theorem missing_nonce_rejected (self : HTTPServer R A) (now : Z)
    (c : Context) (required : list string) :
  authEnabled self = true -> ParseForm_err c = None ->
  url.Get (Request_Form c) "nonce" = "" ->
  Authenticated self now c required
  = ((Request_Form c, false), [failure "Your nonce is invalid"]).
Proof.
  intros Hon Hform Hnonce. unfold Authenticated.
  rewrite Hform, Hon, Hnonce. reflexivity.
Qed.

(** With authentication on and the nonce in time, the first required
    parameter that is absent or empty is the one the rejection names,
    whatever the signature is. *)
Theorem first_missing_param_named (self : HTTPServer R A) (now : Z)
    (c : Context) (present : list string) (p : string)
    (others : list string) :
  authEnabled self = true -> ParseForm_err c = None ->
  IsIntime now (url.Get (Request_Form c) "nonce") = true ->
  Forall (fun q => url.Get (Request_Form c) q <> "") present ->
  url.Get (Request_Form c) p = "" ->
  Authenticated self now c (present ++ p :: others)
  = ((Request_Form c, false),
     [failure ("Required param (" ++ p
               ++ ") is missing. Param name is case sensitive")]).
Proof.
  intros Hon Hform Hin Hpresent Hp. unfold Authenticated.
  rewrite Hform, Hon, Hin. simpl negb. cbv iota.
  assert (Hmiss : missingParam (Request_Form c) (present ++ p :: others)
                  = Some p).
  { induction Hpresent as [|q qs Hq Hqs IH]; simpl.
    - rewrite Hp. reflexivity.
    - destruct (String.eqb_spec (url.Get (Request_Form c) q) "");
        [contradiction | exact IH]. }
  rewrite Hmiss. reflexivity.
Qed.

(** The snapshot handlers answer every request with exactly one
    response, and [AuthData] asks the facade for nothing unless
    [Authenticated] let the request through. *)
Theorem snapshot_handlers_respond_once
    (NewTokenPair : string -> string -> string * error)
    (self : HTTPServer R A) (now now' : Z) (c : Context) :
  length (snd (AllPrices self now c)) = 1%nat
  /\ length (snd (Price NewTokenPair self now c)) = 1%nat
  /\ length (snd (GetRate self now c)) = 1%nat
  /\ length (snd (AuthData self now now' c)) = 1%nat
  /\ (snd (fst (Authenticated self now c [])) = false ->
      fst (AuthData self now now' c) = []).
Proof.
  assert (Hone : forall r key b, length (respond r key b) = 1%nat).
  { intros [snap [e|]] key b; reflexivity. }
  unfold AllPrices, Price, GetRate, AuthData. simpl.
  rewrite !Hone.
  split; [reflexivity|]. split.
  { destruct (NewTokenPair _ _) as [pairID [e|]]; simpl;
      [reflexivity | apply Hone]. }
  split; [reflexivity|].
  pose proof (Authenticated_written self now c []) as Hlen.
  destruct (Authenticated self now c []) as [[form ok] written].
  simpl in Hlen. destruct ok; simpl.
  - rewrite length_app, Hone, Hlen. split; [reflexivity | discriminate].
  - split; [exact Hlen | reflexivity].
Qed.

End AnyServer.

Lemma snapshot_handlers_respond_once_witness :
  length (snd (AuthData (server true) now0 now0 staleForged)) = 1%nat
  /\ fst (AuthData (server true) now0 now0 staleForged) = [].
Proof.
  pose proof (snapshot_handlers_respond_once pairOf (server true) now0 now0
                staleForged) as (_ & _ & _ & Honce & Hquiet).
  split; [exact Honce | apply Hquiet; reflexivity].
Defined.

Lemma missing_nonce_rejected_witness :
  Authenticated (server true) now0 bare ["order_id"]
  = ((Request_Form bare, false), [failure "Your nonce is invalid"]).
Proof.
  apply (missing_nonce_rejected (server true) now0 bare ["order_id"]);
    reflexivity.
Defined.

Lemma first_missing_param_named_witness :
  Authenticated (server true) now0
    (request {[ "nonce" := ["1699999995123"]; "token" := ["ETH"] ]} "" ∅)
    ["token"; "amount"]
  = (({[ "nonce" := ["1699999995123"]; "token" := ["ETH"] ]}, false),
     [failure "Required param (amount) is missing. Param name is case sensitive"]).
Proof.
  assert (Hpresent :
            Forall (fun q =>
                      url.Get ({[ "nonce" := ["1699999995123"];
                                  "token" := ["ETH"] ]} : url.Values) q <> "")
              ["token"])
    by (constructor; [discriminate | constructor]).
  exact (first_missing_param_named (server true) now0
           (request {[ "nonce" := ["1699999995123"]; "token" := ["ETH"] ]}
              "" ∅) ["token"] "amount" [] eq_refl eq_refl eq_refl
           Hpresent eq_refl).
Defined.

Lemma Authenticated_responds_witness :
  snd (Authenticated (server true) now0 signedCancel ["order_id"]) = []
  /\ exists reason,
       snd (Authenticated (server true) now0 staleForged []) = [failure reason]
       /\ snd (failure reason) !! "success" = Some (JBool false).
Proof.
  pose proof (Authenticated_responds (server true) now0 signedCancel
                ["order_id"]) as (_ & Hpass & _).
  pose proof (Authenticated_responds (server true) now0 staleForged [])
    as (_ & _ & Hfail).
  split; [apply Hpass | apply Hfail]; reflexivity.
Defined.

(** A [uint64] too large for an [int64] is no nonce: [ParseInt]
    refuses its text. *)
Lemma ParseInt_FormatUint_large (v : Z) :
  two63 <= v <= maxUint64 -> snd (ParseInt (FormatUint v) 10 64) <> None.
Proof.
  intros Hv.
  assert (Hu : 0 <= v <= maxUint64) by (unfold two63 in Hv; lia).
  destruct (FormatUint_head_digit v Hu) as (ch & rest & Heq & Hch).
  pose proof (ParseUint_FormatUint v Hu) as Hparse.
  rewrite Heq in *. unfold ParseInt.
  destruct (Ascii.eqb_spec ch "+"%char) as [->|_];
    [change (byte_of "+"%char) with 43 in Hch; lia|].
  destruct (Ascii.eqb_spec ch "-"%char) as [->|_];
    [change (byte_of "-"%char) with 45 in Hch; lia|].
  rewrite Hparse. change (2 ^ (64 - 1)) with two63.
  assert (Hcut : (two63 <=? v) = true) by (apply Z.leb_le; lia).
  simpl negb. simpl andb. rewrite Hcut. simpl. discriminate.
Qed.

(** The nonces the clients make are accepted exactly when the two
    clocks are no more than ten seconds apart: the one of comparerates
    for every clock, the one [fillRequest] prints of a timepoint taken
    by [GetTimepoint] for a clock at or after the epoch only. *)
Theorem client_nonce_window (server client : Z) :
  - two63 <= server < two63 -> - two63 <= client < two63 ->
  (IsIntime server (clients.comparerates_nonce client) = true
   <-> - 10000 <= serverMillis client - serverMillis server <= 10000)
  /\ (IsIntime server (clients.fillRequest_nonce (GetTimepoint client)) = true
      <-> 0 <= serverMillis client
          /\ - 10000 <= serverMillis client - serverMillis server <= 10000).
Proof.
  intros Hs Hc.
  pose proof (control_plane.serverMillis_range client Hc) as Hr.
  unfold clients.comparerates_nonce, clients.fillRequest_nonce.
  fold (serverMillis client).
  rewrite (to_int64_small (serverMillis client)) by (unfold two63; lia).
  assert (Hsigned :
            IsIntime server (FormatInt (serverMillis client)) = true
            <-> - 10000 <= serverMillis client - serverMillis server <= 10000).
  { rewrite control_plane.IsIntime_true by exact Hs.
    rewrite ParseInt_FormatInt by (unfold two63; lia). split.
    - intros (n & Hn & Hwin). injection Hn as <-. exact Hwin.
    - intros Hwin. eexists. split; [reflexivity | exact Hwin]. }
  split; [exact Hsigned|].
  unfold GetTimepoint. fold (serverMillis client).
  destruct (Z_lt_ge_dec (serverMillis client) 0) as [Hneg|Hpos].
  - assert (Hwrap : to_uint64 (serverMillis client)
                    = serverMillis client + two64).
    { unfold to_uint64, two64. Z.div_mod_to_equations. lia. }
    split; [|lia]. intros Hin. exfalso.
    apply control_plane.IsIntime_true in Hin; [|exact Hs].
    destruct Hin as (n & Hn & _).
    apply (ParseInt_FormatUint_large (to_uint64 (serverMillis client))).
    + rewrite Hwrap. unfold two63, two64, maxUint64. lia.
    + rewrite Hn. reflexivity.
  - rewrite to_uint64_small by (unfold maxUint64; lia).
    assert (Hsame : FormatUint (serverMillis client)
                    = FormatInt (serverMillis client)).
    { unfold FormatInt.
      destruct (serverMillis client <? 0) eqn:E;
        [apply Z.ltb_lt in E; lia | reflexivity]. }
    rewrite Hsame, Hsigned. split; [intros ?; split; [lia | assumption]|].
    intros [_ ?]. assumption.
Qed.

Lemma client_nonce_window_witness :
  IsIntime now0 (clients.comparerates_nonce (now0 + 3000000000)) = true
  /\ IsIntime now0 (clients.fillRequest_nonce
                      (GetTimepoint (now0 - 11000000000))) = false.
Proof.
  assert (Hs : - two63 <= now0 < two63) by (vm_compute; split; congruence).
  assert (Hc : - two63 <= now0 + 3000000000 < two63)
    by (vm_compute; split; congruence).
  assert (Hc' : - two63 <= now0 - 11000000000 < two63)
    by (vm_compute; split; congruence).
  pose proof (client_nonce_window now0 (now0 + 3000000000) Hs Hc) as [Hnear _].
  pose proof (client_nonce_window now0 (now0 - 11000000000) Hs Hc')
    as [_ Hfar].
  split.
  - apply Hnear. vm_compute. split; congruence.
  - apply not_true_is_false. intros E.
    apply Hfar in E. vm_compute in E. destruct E as [_ [E _]].
    apply E. reflexivity.
Defined.

Section AnySetRate.
Context {R A S B : Type} `{Authentication A}
  `{core.ActivityStorage S} `{core.Blockchain.Interface B}.
Variable GetToken : string -> Token * error.
Variable DecodeBig : string -> Z * error.
Variable Quote : string -> string.



End AnySetRate.


End handlers.
